(** * Schema inference and batched import of tabular sources

    Shallow embedding of [services/schemaInference.ts] (identifier
    sanitising, column type detection, row encoding), of
    [importDataToTable] in [services/fileImporter.ts] and of the per-file
    body of the [/upload_old] route, with the properties of the ingestion
    pipeline stated over them.

    Strings are JavaScript strings: finite sequences of UTF-16 code units,
    kept here as [list N].  Rows are JavaScript objects read by property
    name, kept as finite maps from strings to cells.  The relational store
    is reached through [conn.query] only; it is kept abstract (a state type
    and a transition function) and every statement the code sends is
    recorded in a log. *)

From Stdlib Require Import ZArith NArith List Ascii String Lia Bool.
From stdpp Require Import base option list gmap pretty.

Open Scope N_scope.

(** ** JavaScript strings *)

Module Js.

Abbreviation jsstring := (list N).

(** A string literal of the source, as code units. *)
Definition lit (s : string) : jsstring :=
  (fun a => N_of_ascii a) <$> list_ascii_of_string s.

Definition us : N := 95.      (* _ *)

Definition isLower (c : N) : bool := (97 <=? c) && (c <=? 122).
Definition isUpper (c : N) : bool := (65 <=? c) && (c <=? 90).
Definition isDigit (c : N) : bool := (48 <=? c) && (c <=? 57).

(** The class [[a-z0-9_]]. *)
Definition isWord (c : N) : bool := isLower c || isDigit c || (c =? us).

(** WhiteSpace and LineTerminator code units, as [String.prototype.trim]
    strips them. *)
Definition isSpace (c : N) : bool :=
  ((9 <=? c) && (c <=? 13)) || (c =? 32) || (c =? 160) || (c =? 5760)
  || ((8192 <=? c) && (c <=? 8202)) || (c =? 8232) || (c =? 8233)
  || (c =? 8239) || (c =? 8287) || (c =? 12288) || (c =? 65279).

Fixpoint dropWhile (p : N -> bool) (s : jsstring) : jsstring :=
  match s with
  | [] => []
  | c :: r => if p c then dropWhile p r else s
  end.

Definition dropWhileEnd (p : N -> bool) (s : jsstring) : jsstring :=
  rev (dropWhile p (rev s)).

(** [s.trim()] *)
Definition trim (s : jsstring) : jsstring :=
  dropWhileEnd isSpace (dropWhile isSpace s).

(** [s.toLowerCase()], one code unit at a time.  ASCII capitals move down
    by 32.  Two code units outside ASCII lower-case into ASCII: U+0130
    becomes i followed by U+0307, and U+212A (Kelvin sign) becomes k.
    Every other code unit outside ASCII lower-cases to code units outside
    ASCII and is left in place: the functions below only ever compare the
    result with ASCII characters and ASCII classes. *)
Definition lowerUnit (c : N) : jsstring :=
  if isUpper c then [c + 32]
  else if c =? 304 then [105; 775]
  else if c =? 8490 then [107]
  else [c].

Definition toLowerCase (s : jsstring) : jsstring := flat_map lowerUnit s.

Definition eqbStr (a b : jsstring) : bool := bool_decide (a = b).

(** [list.includes(s)] for an array of string literals. *)
Definition includes (l : list jsstring) (s : jsstring) : bool :=
  existsb (eqbStr s) l.

(** Decimal rendering of a loop counter, [`${suffix}`]. *)
Definition decimal (n : N) : jsstring := lit (pretty n).

End Js.

Import Js.

(** ** Identifier sanitising ([sanitizeSqlIdentifier]) *)

(** [.replace(/[^a-z0-9_]+/g, '_')]: every maximal run of code units
    outside the word class becomes one underscore.  [inRun] tells that the
    previous code unit was already part of the run being replaced. *)
Fixpoint replaceNonWordRuns (inRun : bool) (s : jsstring) : jsstring :=
  match s with
  | [] => []
  | c :: r =>
      if isWord c then c :: replaceNonWordRuns false r
      else if inRun then replaceNonWordRuns true r
      else us :: replaceNonWordRuns true r
  end.

(** [/^[0-9]/.test(s)] *)
Definition startsWithDigit (s : jsstring) : bool :=
  match s with
  | c :: _ => isDigit c
  | [] => false
  end.

Definition isUnderscore (c : N) : bool := c =? us.

(** [.replace(/^_+|_+$/g, '')]: the leading run of underscores and the
    trailing run of underscores are removed. *)
Definition stripUnderscores (s : jsstring) : jsstring :=
  dropWhileEnd isUnderscore (dropWhile isUnderscore s).

(** [.replace(/__+/g, '_')]: an underscore followed by an underscore is
    dropped, so that every run of two or more becomes one. *)
Fixpoint collapseUnderscores (s : jsstring) : jsstring :=
  match s with
  | [] => []
  | a :: r =>
      match r with
      | b :: _ =>
          if isUnderscore a && isUnderscore b then collapseUnderscores r
          else a :: collapseUnderscores r
      | [] => [a]
      end
  end.

Definition isEmpty (s : jsstring) : bool :=
  match s with [] => true | _ => false end.

Definition sanitizeSqlIdentifier (name : jsstring) : jsstring :=
  let sanitized := replaceNonWordRuns false (toLowerCase (trim name)) in
  let sanitized :=
    if isEmpty sanitized || startsWithDigit sanitized
    then lit "col_" ++ sanitized
    else sanitized in
  let sanitized := collapseUnderscores (stripUnderscores sanitized) in
  if isEmpty sanitized then lit "col_unnamed" else sanitized.

(** The shape [^[a-z][a-z0-9_]*$]. *)
Definition matchesIdentifier (s : jsstring) : bool :=
  match s with
  | c :: r => isLower c && forallb isWord r
  | [] => false
  end.


(** ** Numbers of the runtime

    Cells may hold IEEE doubles and the encoder produces them.  Doubles and
    the runtime's conversions between doubles and strings stay abstract:
    an interface with the operations the source applies. *)

Class JsNumber := {
  number : Type;
  numOfZ : Z -> number;                   (* an integer literal *)
  Number_isInteger : number -> bool;
  Number_isNaN : number -> bool;
  numGt : number -> number -> bool;       (* a > b *)
  numLt : number -> number -> bool;       (* a < b *)
  numToString : number -> jsstring;       (* String(n) *)
  toNumber : jsstring -> number;          (* Number(s) *)
  parseInt10 : jsstring -> number;        (* Number.parseInt(s, 10) *)
}.

(** ** Cells, rows and schemas *)

Section Schema.
Context {R : JsNumber}.

(** A raw cell value ([any] in the source): the value of a property read.
    [CObject] stands for any other object (a date, say), given by its
    string conversion. *)
Inductive cell : Type :=
  | CUndefined
  | CNull
  | CString (s : jsstring)
  | CBoolean (b : bool)
  | CNumber (n : number)
  | CObject (str : jsstring).

(** [String(v)] *)
Definition toStr (v : cell) : jsstring :=
  match v with
  | CUndefined => lit "undefined"
  | CNull => lit "null"
  | CString s => s
  | CBoolean true => lit "true"
  | CBoolean false => lit "false"
  | CNumber n => numToString n
  | CObject str => str
  end.

(** [v == null] *)
Definition isNullish (v : cell) : bool :=
  match v with CUndefined | CNull => true | _ => false end.

(** [v === ''] *)
Definition isEmptyString (v : cell) : bool :=
  match v with CString [] => true | _ => false end.

(** [v !== undefined] *)
Definition isDefined (v : cell) : bool :=
  match v with CUndefined => false | _ => true end.

(** [v !== null && v !== ''] *)
Definition isNonNull (v : cell) : bool :=
  match v with CNull => false | CString [] => false | _ => true end.

(** A row: [Record<string, any>].  Reading a property that the object
    does not have gives [undefined]. *)
Definition rowGet (r : gmap jsstring cell) (h : jsstring) : cell :=
  default CUndefined (r !! h).

Inductive SqlType : Type :=
  | INT | BIGINT | DOUBLE | DECIMAL | BOOLEAN | DATE | DATETIME
  | VARCHAR | TEXT | LONGTEXT.

Record ColumnSchema : Type := {
  name : jsstring;              (* sanitized SQL identifier *)
  originalHeader : jsstring;    (* original file header to map values *)
  type : SqlType;
  varcharLength : option N;     (* [length?], for VARCHAR *)
  nullable : bool;
}.

Record TableSchema : Type := { columns : list ColumnSchema }.

(** *** Regular expressions of the detector, as matchers *)

(** Consumes exactly [n] digits. *)
Fixpoint digits (n : nat) (s : jsstring) : option jsstring :=
  match n with
  | O => Some s
  | S k =>
      match s with
      | c :: r => if isDigit c then digits k r else None
      | [] => None
      end
  end.

(** Consumes one code unit accepted by [p]. *)
Definition one (p : N -> bool) (s : jsstring) : option jsstring :=
  match s with
  | c :: r => if p c then Some r else None
  | [] => None
  end.

Definition isSign (c : N) : bool := (c =? 45) || (c =? 43).     (* - + *)
Definition isDash (c : N) : bool := c =? 45.
Definition isColon (c : N) : bool := c =? 58.
Definition isDot (c : N) : bool := c =? 46.
Definition isSpaceOrT (c : N) : bool := (c =? 32) || (c =? 84).

(** [[-+]?] *)
Definition optSign (s : jsstring) : jsstring :=
  match s with
  | c :: r => if isSign c then r else s
  | [] => []
  end.

(** [\d+$] *)
Definition digits1End (s : jsstring) : bool :=
  negb (isEmpty s) && forallb isDigit s.

(** [(?:\.\d+)?$] *)
Definition optFractionEnd (s : jsstring) : bool :=
  match s with
  | [] => true
  | c :: r => isDot c && digits1End r
  end.

(** [/^[-+]?\d+$/] *)
Definition reInteger (s : jsstring) : bool := digits1End (optSign s).

(** [/^[-+]?\d*(?:\.\d+)?$/] *)
Definition reFloat (s : jsstring) : bool :=
  optFractionEnd (dropWhile isDigit (optSign s)).

(** [\d{4}-\d{2}-\d{2}], giving what follows. *)
Definition datePrefix (s : jsstring) : option jsstring :=
  s ← digits 4 s; s ← one isDash s; s ← digits 2 s; s ← one isDash s;
  digits 2 s.

(** [/^\d{4}-\d{2}-\d{2}$/] *)
Definition reIsoDate (s : jsstring) : bool :=
  match datePrefix s with
  | Some r => isEmpty r
  | None => false
  end.

(** [/^\d{4}-\d{2}-\d{2}[ T]\d{2}:\d{2}:\d{2}(?:\.\d+)?$/] *)
Definition reIsoDateTime (s : jsstring) : bool :=
  match
    s ← datePrefix s; s ← one isSpaceOrT s; s ← digits 2 s;
    s ← one isColon s; s ← digits 2 s; s ← one isColon s; digits 2 s
  with
  | Some r => optFractionEnd r
  | None => false
  end.

(** *** Value classifiers *)

Definition isIntegerLike (value : cell) : bool :=
  if isNullish value || isEmptyString value then false
  else match value with
       | CNumber n => Number_isInteger n
       | _ =>
           let s := trim (toStr value) in
           if negb (reInteger s) then false
           else Number_isInteger (toNumber s)
       end.

Definition isBigIntRange (value : cell) : bool :=
  let n := match value with
           | CNumber n => n
           | _ => toNumber (toStr value)
           end in
  numGt n (numOfZ 2147483647) || numLt n (numOfZ (-2147483648)).

Definition isFloatLike (value : cell) : bool :=
  if isNullish value || isEmptyString value then false
  else match value with
       | CNumber n => negb (Number_isNaN n) && negb (Number_isInteger n)
       | _ =>
           let s := trim (toStr value) in
           if negb (reFloat s) then false
           else existsb isDot s || negb (isIntegerLike value)
       end.

Definition booleanTokens : list jsstring :=
  [lit "true"; lit "false"; lit "yes"; lit "no"; lit "y"; lit "n";
   lit "1"; lit "0"].

Definition isBooleanLike (value : cell) : bool :=
  match value with
  | CBoolean _ => true
  | _ => includes booleanTokens (toLowerCase (trim (toStr value)))
  end.

Definition isIsoDate (value : cell) : bool :=
  if isNullish value || isEmptyString value then false
  else reIsoDate (trim (toStr value)).

Definition isIsoDateTime (value : cell) : bool :=
  if isNullish value || isEmptyString value then false
  else reIsoDateTime (trim (toStr value)).

(** *** Schema inference ([inferTableSchema]) *)

(** The [while (used.has(name)) name = `${name}_${suffix++}`] loop.  Each
    round appends to the name of the round before.  [fuel] bounds the
    number of rounds; [None] means the bound was reached. *)
Fixpoint dedupLoop (fuel : nat) (used : gset jsstring) (name : jsstring)
    (suffix : N) : option jsstring :=
  if bool_decide (name ∈ used) then
    match fuel with
    | O => None
    | S fuel' =>
        dedupLoop fuel' used (name ++ us :: decimal suffix) (suffix + 1)
    end
  else Some name.

(** The loop started at suffix 1; a set of [n] names stops it within [n]
    rounds ([dedupLoop_total]). *)
Definition uniqueName (used : gset jsstring) (name : jsstring) : jsstring :=
  default name (dedupLoop (size used) used name 1).

(** [headers.map(...)] of the first pass, threading the set [used].  A
    header is [None] when it is [null] or [undefined] in the array. *)
Fixpoint nameColumns (used : gset jsstring) (headers : list (option jsstring))
    : list ColumnSchema :=
  match headers with
  | [] => []
  | headerRaw :: rest =>
      let header := default (lit "column") headerRaw in
      let name := uniqueName used (sanitizeSqlIdentifier header) in
      {| name := name; originalHeader := header; type := LONGTEXT;
         varcharLength := None; nullable := true |}
      :: nameColumns ({[name]} ∪ used) rest
  end.

(** [rows.slice(0, 1000)] *)
Definition sampleRows (rows : list (gmap jsstring cell))
    : list (gmap jsstring cell) := take 1000 rows.

(** [sample.map(r => r[h]).filter(v => v !== undefined)] *)
Definition columnValues (sample : list (gmap jsstring cell)) (h : jsstring)
    : list cell :=
  List.filter isDefined (map (fun r => rowGet r h) sample).

(** [values.filter(v => v !== null && v !== '')] *)
Definition nonNullValues (values : list cell) : list cell :=
  List.filter isNonNull values.

(** The [if ... else if ...] chain choosing the column type. *)
Definition chooseType (nonNull : list cell) : SqlType :=
  if (length nonNull =? 0)%nat then LONGTEXT
  else if forallb isBooleanLike nonNull then BOOLEAN
  else if forallb isIntegerLike nonNull then
    (if existsb isBigIntRange nonNull then BIGINT else BIGINT)
  else if forallb (fun v => isIntegerLike v || isFloatLike v) nonNull
    then DOUBLE
  else if forallb isIsoDateTime nonNull then DATETIME
  else if forallb (fun v => isIsoDateTime v || isIsoDate v) nonNull
    then DATETIME
  else if forallb isIsoDate nonNull then DATE
  else LONGTEXT.

(** Body of [for (const col of columns)]. *)
Definition detectColumn (sample : list (gmap jsstring cell))
    (col : ColumnSchema) : ColumnSchema :=
  let values := columnValues sample (originalHeader col) in
  let nonNull := nonNullValues values in
  let nullable := (length nonNull <? length values)%nat in
  {| name := name col; originalHeader := originalHeader col;
     type := chooseType nonNull; varcharLength := None;
     nullable := nullable |}.

Definition inferTableSchema (headers : list (option jsstring))
    (rows : list (gmap jsstring cell)) : TableSchema :=
  let columns := nameColumns ∅ headers in
  let sample := sampleRows rows in
  {| columns := map (detectColumn sample) columns |}.

(** *** Table creation ([generateCreateTableSql]) *)

Inductive Nullability : Type := AllNullable | Inferred.

Inductive IfExists : Type := Append | Replace | Fail.

Definition typeName (t : SqlType) : jsstring :=
  match t with
  | INT => lit "INT" | BIGINT => lit "BIGINT" | DOUBLE => lit "DOUBLE"
  | DECIMAL => lit "DECIMAL" | BOOLEAN => lit "BOOLEAN" | DATE => lit "DATE"
  | DATETIME => lit "DATETIME" | VARCHAR => lit "VARCHAR"
  | TEXT => lit "TEXT" | LONGTEXT => lit "LONGTEXT"
  end.

(** [c.type === 'VARCHAR' && c.length ? `VARCHAR(${c.length})` : c.type] *)
Definition typeStrOf (c : ColumnSchema) : jsstring :=
  match type c, varcharLength c with
  | VARCHAR, Some n =>
      if n =? 0 then typeName VARCHAR
      else lit "VARCHAR(" ++ decimal n ++ lit ")"
  | t, _ => typeName t
  end.

(** One column of the statement: [`name` TYPE NULL] or
    [`name` TYPE NOT NULL]. *)
Record ColumnDef : Type := {
  defName : jsstring;
  defType : jsstring;
  defAllowNull : bool;
}.

(** [CREATE TABLE IF NOT EXISTS `tableName` (...)], by its parts. *)
Definition generateCreateTableSql (tableName : jsstring)
    (schema : TableSchema) (_ifExists : IfExists)
    (nullability : Nullability) : jsstring * list ColumnDef :=
  let cols :=
    map (fun c =>
           let allowNull :=
             match nullability with
             | AllNullable => true
             | Inferred => nullable c
             end in
           {| defName := name c; defType := typeStrOf c;
              defAllowNull := allowNull |})
        (columns schema) in
  (tableName, cols).

(** *** Row encoding ([mapRowToSqlColumns]) *)

(** A statement parameter. *)
Inductive SqlParam : Type :=
  | PNull
  | PNumber (n : number)
  | PString (s : jsstring).

Definition truthyTokens : list jsstring :=
  [lit "true"; lit "yes"; lit "y"; lit "1"].

(** Body of [for (const col of schema.columns)]: the value pushed. *)
Definition encodeColumn (row : gmap jsstring cell) (col : ColumnSchema)
    : SqlParam :=
  let raw := rowGet row (originalHeader col) in
  if isNullish raw || isEmptyString raw then PNull
  else
    match type col with
    | BOOLEAN =>
        let s := toLowerCase (trim (toStr raw)) in
        PNumber (numOfZ (if includes truthyTokens s then 1 else 0))
    | INT | BIGINT =>
        let n := parseInt10 (toStr raw) in
        if Number_isNaN n then PNull else PNumber n
    | DOUBLE | DECIMAL =>
        let n := toNumber (toStr raw) in
        if Number_isNaN n then PNull else PNumber n
    | DATE | DATETIME => PString (toStr raw)
    | TEXT | LONGTEXT | VARCHAR => PString (toStr raw)
    end.

Definition mapRowToSqlColumns (row : gmap jsstring cell)
    (headers : list (option jsstring)) (schema : TableSchema)
    : list SqlParam :=
  map (encodeColumn row) (columns schema).

End Schema.

Arguments cell R : clear implicits.
Arguments SqlParam R : clear implicits.

(** ** The relational store *)

Inductive Status : Type :=
  | Pending | Processing | Processed | Failed | Empty | Unsupported.

(** A registry entry as the pipeline receives it. *)
Record FileRecord : Type := {
  id : jsstring;
  fname : jsstring;           (* [file.name] *)
  mimeType : jsstring;
  webViewLink : jsstring;
}.

(** What a rejected statement throws: [e.sqlMessage] and [e.message]. *)
Record SqlError : Type := {
  sqlMessage : option jsstring;
  message : option jsstring;
}.

(** A row of a [DESCRIBE] answer. *)
Record DescRow : Type := { Field : jsstring; Type_ : jsstring }.

(** The first component of what [conn.query] resolves to: an array of rows
    for a statement that reads, a result header (not an array) otherwise. *)
Inductive QueryResult : Type :=
  | RowsResult (rows : list DescRow)
  | HeaderResult.

Section Store.
Context {R : JsNumber}.

(** The statements the pipeline sends, one constructor per SQL template
    of the source:
    - [DROP TABLE IF EXISTS `t`]
    - [SHOW TABLES LIKE ?] with [t]
    - [CREATE TABLE IF NOT EXISTS `t` (...)]
    - [INSERT INTO `t` (cols) VALUES (?,..),(?,..)] with the flattened values
    - [ALTER TABLE `t` MODIFY `col` typeStr NULL]
    - [DESCRIBE `t`]
    - [UPDATE files SET status=... WHERE id=?]
    - [UPDATE files SET row_count=?, status='processed' WHERE id=?]
    - [INSERT INTO files ... ON DUPLICATE KEY UPDATE status=...] *)
Inductive Stmt : Type :=
  | DropTableIfExists (t : jsstring)
  | ShowTablesLike (t : jsstring)
  | CreateTableIfNotExists (t : jsstring) (cols : list ColumnDef)
  | InsertInto (t : jsstring) (cols : list jsstring)
      (values : list (list (SqlParam R)))
  | AlterModifyNull (t col typeStr : jsstring)
  | Describe (t : jsstring)
  | UpdateFileStatus (st : Status) (fileId : jsstring)
  | UpdateFileProcessed (rowCount : nat) (fileId : jsstring)
  | UpsertFile (file : FileRecord) (st : Status).

(** The store behind [conn.query]: a state and what a statement does to
    it, either throwing or resolving. *)
Class Store := {
  conn : Type;
  query : conn -> Stmt -> conn * (SqlError + QueryResult);
}.

Context {D : Store}.

(** *** Effects: the connection, the statements sent, exceptions *)

Record World : Type := { db : conn; sent : list Stmt }.

Definition M (A : Type) : Type := World -> World * (SqlError + A).

Definition ret {A} (a : A) : M A := fun w => (w, inr a).

Definition bind {A B} (m : M A) (k : A -> M B) : M B :=
  fun w =>
    match m w with
    | (w', inl e) => (w', inl e)
    | (w', inr a) => k a w'
    end.

Definition throw {A} (e : SqlError) : M A := fun w => (w, inl e).

(** [try { m } catch (e) { handler(e) }] *)
Definition tryCatch {A} (m : M A) (handler : SqlError -> M A) : M A :=
  fun w =>
    match m w with
    | (w', inl e) => handler e w'
    | (w', inr a) => (w', inr a)
    end.

(** [await conn.query(stmt)] *)
Definition exec (stmt : Stmt) : M QueryResult :=
  fun w =>
    let '(c, r) := query (db w) stmt in
    ({| db := c; sent := sent w ++ [stmt] |}, r).

End Store.

#[global] Instance M_ret {R : JsNumber} {D : Store} : MRet M := @ret R D.
#[global] Instance M_bind {R : JsNumber} {D : Store} : MBind M :=
  fun A B k m => bind m k.

(** ** The pipelines *)

Section Pipeline.
Context {R : JsNumber} {D : Store}.

Record ParsedData : Type := {
  headers : list (option jsstring);
  rows : list (gmap jsstring (cell R));
}.

Definition batchSize : nat := 500.

(** [xs.slice(i, j)] for [0 <= i <= j]. *)
Definition slice {A} (i j : nat) (xs : list A) : list A :=
  take (j - i) (drop i xs).

(** [a || b] on strings: the empty string and a missing value are falsy. *)
Definition orElse (a : option jsstring) (b : jsstring) : jsstring :=
  match a with
  | Some (c :: r) => c :: r
  | _ => b
  end.

(** [Array.isArray(existing) && existing.length > 0] *)
Definition nonEmptyArray (q : QueryResult) : bool :=
  match q with
  | RowsResult (_ :: _) => true
  | _ => false
  end.

(** The batches [rows.slice(i, i + batchSize)] that
    [for (let i = 0; i < rows.length; i += batchSize)] goes through from
    [i] on.  [fuel] bounds the number of rounds. *)
Fixpoint batchesFrom {A} (fuel : nat) (i : nat) (xs : list A)
    : list (list A) :=
  match fuel with
  | O => []
  | S fuel' =>
      if (i <? length xs)%nat
      then slice i (i + batchSize) xs :: batchesFrom fuel' (i + batchSize) xs
      else []
  end.

(** All batches: [length xs] rounds are enough ([batchesFrom_fuel]). *)
Definition batches {A} (xs : list A) : list (list A) :=
  batchesFrom (length xs) 0 xs.

(** The batch loop with a given body. *)
Fixpoint forBatches (body : list (gmap jsstring (cell R)) -> M unit)
    (fuel : nat) (i : nat) (rows : list (gmap jsstring (cell R))) : M unit :=
  match fuel with
  | O => ret tt
  | S fuel' =>
      if (i <? length rows)%nat
      then body (slice i (i + batchSize) rows);;
           forBatches body fuel' (i + batchSize) rows
      else ret tt
  end.

(** [values] of a batch: one encoded parameter list per row. *)
Definition batchValues (parsed : ParsedData) (schema : TableSchema)
    (batch : list (gmap jsstring (cell R))) : list (list (SqlParam R)) :=
  map (fun row => mapRowToSqlColumns row (headers parsed) schema) batch.

(** [insertSql] with [flatValues]: the insert of one batch. *)
Definition insertStatement (tableName : jsstring) (parsed : ParsedData)
    (schema : TableSchema) (batch : list (gmap jsstring (cell R))) : Stmt :=
  let columnNames := map name (columns schema) in
  InsertInto tableName columnNames (batchValues parsed schema batch).

(** *** [importDataToTable] *)

(** Body of the batch loop of [importDataToTable]. *)
Definition importBatch (tableName : jsstring) (parsed : ParsedData)
    (schema : TableSchema) (batch : list (gmap jsstring (cell R))) : M unit :=
  let values := batchValues parsed schema batch in
  let flatValues := concat values in
  let insertSql := insertStatement tableName parsed schema batch in
  if (0 <? length flatValues)%nat
  then exec insertSql;; ret tt
  else ret tt.

(** [suggested] is [path.basename(file.name || "data", ext).toLowerCase()],
    which the source computes with node's [path] module.  The [return]
    inside the [fail] branch is the flag [returned].  Acquiring and
    releasing the connection sends no statement and is left out. *)
Definition importDataToTable (file : FileRecord) (suggested : jsstring)
    (parsed : ParsedData) (ifExists : IfExists)
    (explicitTableName : option jsstring) : M unit :=
  let tableName :=
    sanitizeSqlIdentifier (orElse explicitTableName suggested) in
  let schema := inferTableSchema (headers parsed) (rows parsed) in
  let nullability := AllNullable in
  let '(t, cols) :=
    generateCreateTableSql tableName schema ifExists nullability in
  (match ifExists with
   | Replace => exec (DropTableIfExists tableName);; ret tt
   | _ => ret tt
   end);;
  returned ←
    (match ifExists with
     | Fail =>
         existing ← exec (ShowTablesLike tableName);
         if nonEmptyArray existing
         then exec (UpdateFileStatus Failed (id file));; ret true
         else ret false
     | _ => ret false
     end);
  if returned : bool then ret tt
  else
    exec (CreateTableIfNotExists t cols);;
    forBatches (importBatch tableName parsed schema)
      (length (rows parsed)) 0 (rows parsed);;
    exec (UpdateFileProcessed (length (rows parsed)) (id file));;
    ret tt.

(** *** The [/upload_old] route, one file of the folder *)

(** Equality of two code units under the [i] flag, for an ASCII pattern
    character: both are compared after moving ASCII small letters up. *)
Definition upperUnit (c : N) : N := if isLower c then c - 32 else c.
Definition eqbCI (p c : N) : bool := upperUnit p =? upperUnit c.

(** Matches the literal [pat] at the start of [s] under the [i] flag and
    gives what follows. *)
Fixpoint stripPrefixCI (pat s : jsstring) : option jsstring :=
  match pat with
  | [] => Some s
  | p :: pat' =>
      match s with
      | c :: r => if eqbCI p c then stripPrefixCI pat' r else None
      | [] => None
      end
  end.

Definition isQuote (c : N) : bool := c =? 39.

Fixpoint takeWhile (p : N -> bool) (s : jsstring) : jsstring :=
  match s with
  | [] => []
  | c :: r => if p c then c :: takeWhile p r else []
  end.

(** [/Column '([^']+)' cannot be null/i] matched at the start of [s]:
    the captured group. *)
Definition notNullColumnAt (s : jsstring) : option jsstring :=
  r ← stripPrefixCI (lit "Column '") s;
  let col := takeWhile (fun c => negb (isQuote c)) r in
  let r := dropWhile (fun c => negb (isQuote c)) r in
  if isEmpty col then None
  else _ ← stripPrefixCI (lit "' cannot be null") r; Some col.

(** [msg.match(/Column '([^']+)' cannot be null/i)], group 1 of the
    leftmost match. *)
Fixpoint notNullColumn (msg : jsstring) : option jsstring :=
  match notNullColumnAt msg with
  | Some col => Some col
  | None =>
      match msg with
      | [] => None
      | _ :: r => notNullColumn r
      end
  end.

(** [e?.sqlMessage || e?.message || ''] *)
Definition errorText (e : SqlError) : jsstring :=
  orElse (sqlMessage e) (orElse (message e) []).

(** Body of the batch loop of the route: the insert, and in its [catch]
    the widening of the column named by the error followed by the same
    insert once more. *)
Definition uploadOldBatch (tableName : jsstring) (parsed : ParsedData)
    (schema : TableSchema) (batch : list (gmap jsstring (cell R))) : M unit :=
  let values := batchValues parsed schema batch in
  let flatValues := concat values in
  let insertSql := insertStatement tableName parsed schema batch in
  if (0 <? length flatValues)%nat
  then
    tryCatch (exec insertSql;; ret tt)
      (fun e =>
         let msg := errorText e in
         match notNullColumn msg with
         | Some colName =>
             let col :=
               List.find (fun c => eqbStr (name c) colName) (columns schema) in
             let typeStr :=
               match col with
               | Some c => typeStrOf c
               | None => []
               end in
             typeStr ←
               (if isEmpty typeStr
                then
                  descRows ← exec (Describe tableName);
                  let found :=
                    match descRows with
                    | RowsResult rs =>
                        List.find (fun r => eqbStr (Field r) colName) rs
                    | HeaderResult => None
                    end in
                  ret (match found with
                       | Some r => orElse (Some (Type_ r)) (lit "TEXT")
                       | None => lit "TEXT"
                       end)
                else ret typeStr);
             exec (AlterModifyNull tableName colName typeStr);;
             exec insertSql;;
             ret tt
         | None => throw e
         end)
  else ret tt.

(** What the route reports for a processed file. *)
Record ProcessedResult : Type := {
  resultFileId : jsstring;
  resultTable : jsstring;
  resultRowCount : nat;
}.

Definition supportedExt (ext : jsstring) : bool :=
  includes [lit ".csv"; lit ".xlsx"; lit ".xls"] ext.

(** Body of [for (const file of files)] after the download.  [ext] is the
    extension after the type override, [parsed] what the parser chosen by
    [ext] returned, [suggested] is
    [path.basename(originalName || 'data', ext).toLowerCase()].  [None] is
    returned where the source leaves the round without reporting a
    result. *)
Definition uploadOldFile (file : FileRecord) (ext : jsstring)
    (parsed : option ParsedData) (suggested : jsstring)
    (ifExists : IfExists) (explicitTableName : jsstring)
    (nullability : Nullability) : M (option ProcessedResult) :=
  exec (UpsertFile file Processing);;
  if negb (supportedExt ext)
  then exec (UpdateFileStatus Unsupported (id file));; ret None
  else
    match parsed with
    | None => exec (UpdateFileStatus Empty (id file));; ret None
    | Some parsed =>
        if (length (rows parsed) =? 0)%nat
        then exec (UpdateFileStatus Empty (id file));; ret None
        else
          let tableName :=
            sanitizeSqlIdentifier
              (orElse (Some explicitTableName) suggested) in
          let schema := inferTableSchema (headers parsed) (rows parsed) in
          let '(t, cols) :=
            generateCreateTableSql tableName schema ifExists nullability in
          tryCatch
            ((match ifExists with
              | Replace => exec (DropTableIfExists tableName);; ret tt
              | _ => ret tt
              end);;
             skipped ←
               (match ifExists with
                | Fail =>
                    existing ← exec (ShowTablesLike tableName);
                    if nonEmptyArray existing
                    then exec (UpdateFileStatus Failed (id file));; ret true
                    else ret false
                | _ => ret false
                end);
             if skipped : bool then ret None
             else
               exec (CreateTableIfNotExists t cols);;
               forBatches (uploadOldBatch tableName parsed schema)
                 (length (rows parsed)) 0 (rows parsed);;
               exec (UpdateFileProcessed (length (rows parsed)) (id file));;
               ret (Some {| resultFileId := id file;
                            resultTable := tableName;
                            resultRowCount := length (rows parsed) |}))
            (fun err =>
               exec (UpdateFileStatus Failed (id file));; ret None)
    end.

(** Running a pipeline on a connection, nothing sent yet. *)
Definition run {A} (m : M A) (c : conn) : World * (SqlError + A) :=
  m {| db := c; sent := [] |}.

(** The statements a run sent, and what it ended with. *)
Definition sentBy {A} (m : M A) (c : conn) : list Stmt := sent (fst (run m c)).
Definition outcome {A} (m : M A) (c : conn) : SqlError + A := snd (run m c).

(** Every statement that [m] sends satisfies [P], whatever the store
    answers. *)
Definition sendsOnly {A} (P : Stmt -> bool) (m : M A) : Prop :=
  forall w, exists extra,
    sent (fst (m w)) = sent w ++ extra /\ forallb P extra = true.

(** A store that accepts every statement and answers no rows. *)
Definition quiet : Prop :=
  forall (c : conn) (s : Stmt),
    exists c' q, query c s = (c', inr q) /\ nonEmptyArray q = false.

Definition isInsert (s : Stmt) : bool :=
  match s with InsertInto _ _ _ => true | _ => false end.

Definition isAlter (s : Stmt) : bool :=
  match s with AlterModifyNull _ _ _ => true | _ => false end.

(** DDL: drop, create, alter. *)
Definition isDDL (s : Stmt) : bool :=
  match s with
  | DropTableIfExists _ | CreateTableIfNotExists _ _
  | AlterModifyNull _ _ _ => true
  | _ => false
  end.

End Pipeline.

(** ** Concrete instances, to run the definitions *)

(** A runtime whose numbers are the integers and NaN ([None]); a string
    that is not an integer literal converts to NaN.  The runs below hold
    text cells only and go through none of its conversions. *)
Definition digitsValue (s : jsstring) : Z :=
  fold_left (fun acc c => (acc * 10 + (Z.of_N c - 48))%Z) s 0%Z.

Definition signedValue (s : jsstring) : Z :=
  match s with
  | 45 :: r => (- digitsValue r)%Z
  | 43 :: r => digitsValue r
  | _ => digitsValue s
  end.

Definition integerToString (z : Z) : jsstring :=
  if (z <? 0)%Z then 45 :: decimal (Z.abs_N z) else decimal (Z.abs_N z).

#[global] Instance integerRuntime : JsNumber := {|
  number := option Z;
  numOfZ z := Some z;
  Number_isInteger n := match n with Some _ => true | None => false end;
  Number_isNaN n := match n with Some _ => false | None => true end;
  numGt a b :=
    match a, b with Some x, Some y => (y <? x)%Z | _, _ => false end;
  numLt a b :=
    match a, b with Some x, Some y => (x <? y)%Z | _, _ => false end;
  numToString n :=
    match n with Some z => integerToString z | None => lit "NaN" end;
  toNumber s :=
    let t := trim s in
    if isEmpty t then Some 0%Z
    else if reInteger t then Some (signedValue t) else None;
  parseInt10 s :=
    let t := dropWhile isSpace s in
    let d := takeWhile isDigit (optSign t) in
    if isEmpty d then None
    else Some (match t with
               | 45 :: _ => (- digitsValue d)%Z
               | _ => digitsValue d
               end);
|}.

(** A store that answers from a script, one answer per statement in the
    order they arrive, and accepts everything once the script is used up. *)
Definition scriptedStore {R : JsNumber} : Store := {|
  conn := list (SqlError + QueryResult);
  query c _ :=
    match c with
    | r :: c' => (c', r)
    | [] => ([], inr HeaderResult)
    end;
|}.

(** A connection of the scripted store. *)
Definition script {R : JsNumber} (answers : list (SqlError + QueryResult))
    : @conn R scriptedStore := answers.

(** A store that accepts every statement and counts them. *)
Definition acceptingStore {R : JsNumber} : Store := {|
  conn := nat;
  query c _ := (S c, inr HeaderResult);
|}.

(** The name after [k] rounds of the renaming loop started at [base]:
    [base], [base_1], [base_1_2], ... *)
Fixpoint withSuffixes (base : jsstring) (k : nat) : jsstring :=
  match k with
  | O => base
  | S j => withSuffixes base j ++ us :: decimal (N.of_nat (S j))
  end.

(** The strings the function leaves alone, apart from the digit test:
    word characters only, no underscore at either end, no two underscores
    in a row. *)
Definition normalForm (y : jsstring) : Prop :=
  forallb isWord y = true
  /\ dropWhile isUnderscore y = y
  /\ dropWhileEnd isUnderscore y = y
  /\ collapseUnderscores y = y.

(** Names at least as long as [name] among the used ones. *)
Definition notShorter (name : jsstring) (used : gset jsstring) : gset jsstring :=
  filter (fun x => (length name <= length x)%nat) used.

(** A file, a source and an error to run the pipelines on. *)
Definition sampleFile : FileRecord :=
  {| id := lit "f1"; fname := lit "sales.csv"; mimeType := lit "text/csv";
     webViewLink := [] |}.

(** One header [a]; the first row has a value, the second lacks [a]. *)
Definition sampleParsed : @ParsedData integerRuntime :=
  {| headers := [Some (lit "a")];
     rows := [ {[ lit "a" := CString (lit "x") ]}; ∅ ] |}.

Definition notNullError : SqlError :=
  {| sqlMessage := Some (lit "Column 'a' cannot be null"); message := None |}.

(** A store that rejects every insert with an error that is not a
    not-null violation and accepts every other statement. *)
Definition deadlockError : SqlError :=
  {| sqlMessage := Some (lit "Deadlock found"); message := None |}.

Definition insertRejectingStore {R : JsNumber} : Store := {|
  conn := nat;
  query c s :=
    (S c, if isInsert s then inl deadlockError else inr HeaderResult);
|}.

(** The column inferred for [sampleParsed]. *)
Definition sampleColumn : ColumnSchema :=
  {| name := lit "a"; originalHeader := lit "a"; type := LONGTEXT;
     varcharLength := None; nullable := false |}.

(** ** Further code of the repository *)

Section More.
Context {R : JsNumber}.

(** [measureMaxLength] of [schemaInference.ts]: the longest string
    conversion among the values that are neither [null] nor
    [undefined]. *)
Definition measureMaxLength (values : list (cell R)) : nat :=
  fold_left
    (fun max v =>
       if isNullish v then max
       else
         let len := length (toStr v) in
         if (max <? len)%nat then len else max)
    values 0%nat.

(** *** The connection pool ([services/db.ts]) *)

(** Where the pool connects: [socketPath], or [host] and [port]. *)
Inductive Endpoint : Type :=
  | Socket (socketPath : jsstring)
  | Tcp (host : jsstring) (port : number).

(** The options [mysql.createPool] is called with; the pool it returns is
    kept as these options.  The constant options ([waitForConnections],
    [connectionLimit], [queueLimit], [decimalNumbers]) are left out, and
    [ssl] tells whether [{ rejectUnauthorized: false }] is passed. *)
Record PoolConfig : Type := {
  user : jsstring;
  password : jsstring;
  database : jsstring;
  ssl : bool;
  endpoint : Endpoint;
}.

(** [process.env[key]] read as a condition or under [||]: an unset
    variable and the empty string are falsy. *)
Definition envTruthy (env : gmap jsstring jsstring) (key : jsstring)
    : option jsstring :=
  match env !! key with
  | Some (c :: r) => Some (c :: r)
  | _ => None
  end.

(** The first of [keys] that the environment lacks. *)
Fixpoint firstMissing (env : gmap jsstring jsstring) (keys : list jsstring)
    : option jsstring :=
  match keys with
  | [] => None
  | key :: rest =>
      match envTruthy env key with
      | None => Some key
      | Some _ => firstMissing env rest
      end
  end.

(** [/^true$/i.test(s)] *)
Definition reTrue (s : jsstring) : bool :=
  match stripPrefixCI (lit "true") s with
  | Some [] => true
  | _ => false
  end.

(** [getDatabasePool]: the module variable [pool] is the state; the
    result is the error thrown or the pool returned. *)
Definition getDatabasePool (env : gmap jsstring jsstring)
    (pool : option PoolConfig)
    : option PoolConfig * (jsstring + PoolConfig) :=
  match pool with
  | Some p => (Some p, inr p)
  | None =>
      let requiredBase := [lit "DB_USER"; lit "DB_DATABASE"] in
      match firstMissing env requiredBase with
      | Some key => (None, inl (lit "Missing env var " ++ key))
      | None =>
          let useSocket := envTruthy env (lit "DB_SOCKET_PATH") in
          let ssl := reTrue (default [] (envTruthy env (lit "DB_SSL"))) in
          let mk e :=
            {| user := default [] (env !! lit "DB_USER");
               password := default [] (env !! lit "DB_PASSWORD");
               database := default [] (env !! lit "DB_DATABASE");
               ssl := ssl;
               endpoint := e |} in
          let p :=
            match useSocket with
            | Some path => mk (Socket path)
            | None =>
                mk (Tcp (default (lit "localhost")
                           (envTruthy env (lit "DB_HOST")))
                        (match envTruthy env (lit "DB_PORT") with
                         | Some s => toNumber s
                         | None => numOfZ 3306
                         end))
            end in
          (Some p, inr p)
      end
  end.

(** *** Choosing the parser ([downloadAndParseFile], [/upload_old]) *)

Inductive Parser : Type := CsvParser | ExcelParser.

(** Names that every object literal inherits from [Object.prototype]:
    reading one of them from [overrideMap] gives a value that is truthy
    and is not a string. *)
Definition inheritedKeys : list jsstring :=
  [lit "constructor"; lit "toString"; lit "toLocaleString"; lit "valueOf";
   lit "hasOwnProperty"; lit "isPrototypeOf"; lit "propertyIsEnumerable";
   lit "__defineGetter__"; lit "__defineSetter__"; lit "__lookupGetter__";
   lit "__lookupSetter__"; lit "__proto__"].

(** [overrideMap[overrideType]] for
    [{ csv: ".csv", xlsx: ".xlsx", xls: ".xls" }]: [None] is [undefined],
    [Some None] an inherited value, [Some (Some ext)] an own entry. *)
Definition overrideMap (overrideType : jsstring) : option (option jsstring) :=
  if eqbStr overrideType (lit "csv") then Some (Some (lit ".csv"))
  else if eqbStr overrideType (lit "xlsx") then Some (Some (lit ".xlsx"))
  else if eqbStr overrideType (lit "xls") then Some (Some (lit ".xls"))
  else if includes inheritedKeys overrideType then Some None
  else None.

(** The value of [ext] after the override: [None] when it is no longer a
    string.  [extname] is [path.extname(originalName || "")]. *)
Definition resolveExt (extname : jsstring) (overrideType : option jsstring)
    : option jsstring :=
  let ext := toLowerCase extname in
  if negb (includes [lit ".csv"; lit ".xlsx"; lit ".xls"] ext)
  then
    match overrideType with
    | Some (c :: r) =>
        match overrideMap (c :: r) with
        | Some v => v
        | None => Some ext
        end
    | _ => Some ext
    end
  else Some ext.

(** The parser [downloadAndParseFile] runs; [None] leaves [parsed] at
    [null]. *)
Definition parserFor (extname : jsstring) (overrideType : option jsstring)
    : option Parser :=
  match resolveExt extname overrideType with
  | Some ext =>
      if eqbStr ext (lit ".csv") then Some CsvParser
      else if eqbStr ext (lit ".xlsx") || eqbStr ext (lit ".xls")
      then Some ExcelParser
      else None
  | None => None
  end.

(** The extension after the override in the [/upload_old] route: as in
    [downloadAndParseFile], except that the override,
    [String(req.query.fileType || req.query.type || ...)], is lower-cased
    before it is looked up in [overrideMap], and the lookup alone is
    tested. *)
Definition uploadOldResolveExt (extname fileType : jsstring)
    : option jsstring :=
  let ext := toLowerCase extname in
  let overrideTypeRaw := toLowerCase fileType in
  if negb (includes [lit ".csv"; lit ".xlsx"; lit ".xls"] ext)
  then
    match overrideMap overrideTypeRaw with
    | Some v => v
    | None => Some ext
    end
  else Some ext.

(** The parser the route runs; [None] is the branch that sets the status
    [unsupported]. *)
Definition uploadOldParser (extname fileType : jsstring) : option Parser :=
  match uploadOldResolveExt extname fileType with
  | Some ext =>
      if eqbStr ext (lit ".csv") then Some CsvParser
      else if eqbStr ext (lit ".xlsx") || eqbStr ext (lit ".xls")
      then Some ExcelParser
      else None
  | None => None
  end.

End More.

(** Statements that end a run of a file: a status of [unsupported],
    [empty] or [failed], or the update to [processed]. *)
Definition isTerminalStatus {R : JsNumber} (s : @Stmt R) : bool :=
  match s with
  | UpdateFileStatus Unsupported _ | UpdateFileStatus Empty _
  | UpdateFileStatus Failed _ | UpdateFileProcessed _ _ => true
  | _ => false
  end.

(** Every statement that [m] sends has the property [P], whatever the
    store answers. *)
Definition sendsAll {R : JsNumber} {D : Store} {A} (P : Stmt -> Prop)
    (m : M A) : Prop :=
  forall w, exists extra,
    sent (fst (m w)) = sent w ++ extra /\ Forall P extra.

(** The statements [importDataToTable] may send under a policy. *)
Definition importMaySend {R : JsNumber} (ifExists : IfExists) (s : @Stmt R)
    : Prop :=
  match s with
  | CreateTableIfNotExists _ _ | InsertInto _ _ _
  | UpdateFileProcessed _ _ => True
  | DropTableIfExists _ => ifExists = Replace
  | ShowTablesLike _ | UpdateFileStatus Failed _ => ifExists = Fail
  | _ => False
  end.

(** What precedes the table creation under a policy. *)
Definition policyStatements {R : JsNumber} (ifExists : IfExists)
    (t : jsstring) : list (@Stmt R) :=
  match ifExists with
  | Append => []
  | Replace => [DropTableIfExists t]
  | Fail => [ShowTablesLike t]
  end.

(** The table a statement names, and the file it names. *)
Definition stmtTable {R : JsNumber} (s : @Stmt R) : option jsstring :=
  match s with
  | DropTableIfExists t | ShowTablesLike t | CreateTableIfNotExists t _
  | InsertInto t _ _ | AlterModifyNull t _ _ | Describe t => Some t
  | _ => None
  end.

Definition stmtFile {R : JsNumber} (s : @Stmt R) : option jsstring :=
  match s with
  | UpdateFileStatus _ fid | UpdateFileProcessed _ fid => Some fid
  | UpsertFile file _ => Some (id file)
  | _ => None
  end.

(** *** A round of [/upload_old] with its calls outside the store *)

(** One round of [for (const file of files)].  [download] is what
    [downloadToTemp] does and [parser] what the parser chosen by [ext]
    does when it is called: each throws an error or returns.  The
    download comes before the registration, and the parser between the
    registration and the [try] of the round, so an error of either is not
    caught in the round and leaves the loop.  With an extension that is
    not supported no parser is called. *)
Definition uploadOldRound {R : JsNumber} {D : Store} (file : FileRecord)
    (download : SqlError + unit) (ext : jsstring)
    (parser : SqlError + option ParsedData) (suggested : jsstring)
    (ifExists : IfExists) (explicitTableName : jsstring)
    (nullability : Nullability) : M (option ProcessedResult) :=
  match download with
  | inl e => throw e
  | inr _ =>
      if supportedExt ext
      then
        match parser with
        | inl e => exec (UpsertFile file Processing);; throw e
        | inr parsed =>
            uploadOldFile file ext parsed suggested ifExists
              explicitTableName nullability
        end
      else
        uploadOldFile file ext None suggested ifExists explicitTableName
          nullability
  end.

(** An error of a parser. *)
Definition parseError : SqlError :=
  {| sqlMessage := None; message := Some (lit "Invalid Record Length") |}.

(** * Properties *)

(** ** Identifier sanitising *)

(** C5: [sanitizeSqlIdentifier] tests for a leading digit before it strips
    leading underscores, so an input such as [_1] comes out as [1]: the
    result starts with a digit, does not have the shape
    [^[a-z][a-z0-9_]*$] and is not the placeholder. *)
Theorem C5_sanitize_leading_digit :
  sanitizeSqlIdentifier (lit "_1") = lit "1"
  /\ matchesIdentifier (sanitizeSqlIdentifier (lit "_1")) = false
  /\ startsWithDigit (sanitizeSqlIdentifier (lit "_1")) = true
  /\ sanitizeSqlIdentifier (lit "_1") <> lit "col_unnamed".
Proof. repeat split; try reflexivity. vm_compute. discriminate. Qed.

(** C6: on the input [_1] a second pass changes the result of the first:
    [sanitize("_1")] is [1], and [sanitize("1")] is [col_1]. *)
Theorem C6_sanitize_not_idempotent :
  sanitizeSqlIdentifier (lit "_1") = lit "1"
  /\ sanitizeSqlIdentifier (sanitizeSqlIdentifier (lit "_1")) = lit "col_1"
  /\ sanitizeSqlIdentifier (sanitizeSqlIdentifier (lit "_1"))
     <> sanitizeSqlIdentifier (lit "_1").
Proof. repeat split; try reflexivity. vm_compute. discriminate. Qed.

Lemma forallb_weaken {A} (p q : A -> bool) (l : list A) :
  (forall x, p x = true -> q x = true) ->
  forallb p l = true -> forallb q l = true.
Proof.
  intros Hpq. induction l as [|x l IH]; simpl; [done|].
  intros [Hx Hl]%andb_prop. rewrite (Hpq _ Hx), (IH Hl). done.
Qed.

(** *** What does hold of [sanitizeSqlIdentifier] *)

Lemma dropWhile_idem (p : N -> bool) (s : jsstring) :
  dropWhile p (dropWhile p s) = dropWhile p s.
Proof.
  induction s as [|c r IH]; simpl; [done|].
  destruct (p c) eqn:Hc; [exact IH | simpl; by rewrite Hc].
Qed.

Lemma dropWhile_forall_false (p : N -> bool) (s : jsstring) :
  forallb (fun c => negb (p c)) s = true -> dropWhile p s = s.
Proof.
  destruct s as [|c r]; simpl; [done|].
  intros [Hc _]%andb_prop. by destruct (p c).
Qed.

Lemma dropWhileEnd_snoc (p : N -> bool) (l : jsstring) (c : N) :
  dropWhileEnd p (l ++ [c])
  = if p c then dropWhileEnd p l else l ++ [c].
Proof.
  unfold dropWhileEnd. rewrite rev_app_distr. simpl.
  destruct (p c); [done|]. simpl. by rewrite rev_involutive.
Qed.

Lemma dropWhileEnd_idem (p : N -> bool) (s : jsstring) :
  dropWhileEnd p (dropWhileEnd p s) = dropWhileEnd p s.
Proof.
  induction s as [|c l IH] using rev_ind; [done|].
  rewrite dropWhileEnd_snoc. destruct (p c) eqn:Hc; [exact IH|].
  by rewrite dropWhileEnd_snoc, Hc.
Qed.

Lemma dropWhileEnd_forall_false (p : N -> bool) (s : jsstring) :
  forallb (fun c => negb (p c)) s = true -> dropWhileEnd p s = s.
Proof.
  destruct s as [|c l _] using rev_ind; [done|].
  rewrite forallb_app. simpl. intros [_ Hc]%andb_prop.
  rewrite dropWhileEnd_snoc. by destruct (p c).
Qed.

Lemma dropWhileEnd_cons_keep (p : N -> bool) (c : N) (r : jsstring) :
  p c = false -> dropWhileEnd p (c :: r) = c :: dropWhileEnd p r.
Proof.
  intros Hc. induction r as [|d l IH] using rev_ind.
  - change [c] with ([] ++ [c]). by rewrite dropWhileEnd_snoc, Hc.
  - rewrite app_comm_cons, !dropWhileEnd_snoc.
    destruct (p d); [exact IH | done].
Qed.

Lemma forallb_dropWhile (q p : N -> bool) (s : jsstring) :
  forallb q s = true -> forallb q (dropWhile p s) = true.
Proof.
  induction s as [|c r IH]; simpl; [done|].
  intros [Hc Hr]%andb_prop. destruct (p c); [auto|].
  simpl. by rewrite Hc, Hr.
Qed.

Lemma forallb_dropWhileEnd (q p : N -> bool) (s : jsstring) :
  forallb q s = true -> forallb q (dropWhileEnd p s) = true.
Proof.
  induction s as [|c l IH] using rev_ind; [done|].
  rewrite dropWhileEnd_snoc. rewrite forallb_app.
  intros [Hl Hc]%andb_prop. destruct (p c); [auto|].
  rewrite forallb_app, Hl, Hc. done.
Qed.

Lemma collapse_cons_keep (a : N) (r : jsstring) :
  isUnderscore a = false ->
  collapseUnderscores (a :: r) = a :: collapseUnderscores r.
Proof. intros Ha. destruct r as [|b r]; simpl; [done | by rewrite Ha]. Qed.

(** Collapsing keeps the first code unit. *)
Lemma collapse_head (a : N) (r : jsstring) :
  exists t, collapseUnderscores (a :: r) = a :: t.
Proof.
  revert a. induction r as [|b r IH]; intros a; [by exists []|].
  cbn [collapseUnderscores].
  destruct (isUnderscore a && isUnderscore b) eqn:Hab.
  - apply andb_prop in Hab as [Ha%N.eqb_eq Hb%N.eqb_eq].
    destruct (IH b) as [t Ht]. exists t.
    change (collapseUnderscores (b :: r) = a :: t). rewrite Ht. congruence.
  - eexists. reflexivity.
Qed.

Lemma collapse_idem (s : jsstring) :
  collapseUnderscores (collapseUnderscores s) = collapseUnderscores s.
Proof.
  induction s as [|a s IH]; [done|].
  destruct s as [|b r]; [done|].
  cbn [collapseUnderscores].
  destruct (isUnderscore a && isUnderscore b) eqn:Hab; [exact IH|].
  change (collapseUnderscores (a :: collapseUnderscores (b :: r))
          = a :: collapseUnderscores (b :: r)).
  destruct (collapse_head b r) as [t Ht]. rewrite Ht in *.
  change (collapseUnderscores (a :: b :: t))
    with (if isUnderscore a && isUnderscore b
          then collapseUnderscores (b :: t)
          else a :: collapseUnderscores (b :: t)).
  rewrite Hab. by rewrite IH.
Qed.

Lemma forallb_collapse (q : N -> bool) (s : jsstring) :
  forallb q s = true -> forallb q (collapseUnderscores s) = true.
Proof.
  induction s as [|a s IH]; [done|].
  destruct s as [|b r]; [done|].
  intros [Ha Hs]%andb_prop. cbn [collapseUnderscores].
  destruct (isUnderscore a && isUnderscore b); [auto|].
  cbn [forallb]. rewrite Ha. by apply IH.
Qed.

(** Collapsing keeps the last code unit. *)
Lemma collapse_snoc (l : jsstring) (c : N) :
  exists l', collapseUnderscores (l ++ [c]) = l' ++ [c].
Proof.
  induction l as [|a l IH]; [by exists []|].
  destruct IH as [l' Hl'].
  destruct (l ++ [c]) as [|b r] eqn:Hlc; [by destruct l|].
  change ((a :: l) ++ [c]) with (a :: (l ++ [c])). rewrite Hlc in *.
  change (collapseUnderscores (a :: b :: r))
    with (if isUnderscore a && isUnderscore b
          then collapseUnderscores (b :: r)
          else a :: collapseUnderscores (b :: r)).
  destruct (isUnderscore a && isUnderscore b).
  - exists l'. exact Hl'.
  - exists (a :: l'). by rewrite Hl'.
Qed.

Lemma dropWhileEnd_collapse (s : jsstring) :
  dropWhileEnd isUnderscore s = s ->
  dropWhileEnd isUnderscore (collapseUnderscores s) = collapseUnderscores s.
Proof.
  destruct s as [|c l _] using rev_ind; [done|].
  rewrite dropWhileEnd_snoc. destruct (isUnderscore c) eqn:Hc.
  - intros Heq. exfalso.
    assert (Hlen : (length (dropWhileEnd isUnderscore l) <= length l)%nat).
    { clear. induction l as [|d l IH] using rev_ind; [done|].
      rewrite dropWhileEnd_snoc, length_app. destruct (isUnderscore d);
        [lia | rewrite length_app; lia]. }
    rewrite Heq, length_app in Hlen. simpl in Hlen. lia.
  - intros _. destruct (collapse_snoc l c) as [l' ->].
    by rewrite dropWhileEnd_snoc, Hc.
Qed.

Lemma normalForm_collapse_strip (s : jsstring) :
  forallb isWord s = true ->
  normalForm (collapseUnderscores (stripUnderscores s)).
Proof.
  intros Hw. unfold normalForm, stripUnderscores. repeat split.
  - by apply forallb_collapse, forallb_dropWhileEnd, forallb_dropWhile.
  - pose proof (dropWhile_idem isUnderscore s) as Hd.
    destruct (dropWhile isUnderscore s) as [|c r]; [done|].
    simpl in Hd. destruct (isUnderscore c) eqn:Hc.
    + exfalso. assert (Hlen : forall t, (length (dropWhile isUnderscore t)
                                         <= length t)%nat).
      { clear. induction t as [|d t IH]; simpl; [done|].
        destruct (isUnderscore d); simpl; lia. }
      specialize (Hlen r). rewrite Hd in Hlen. simpl in Hlen. lia.
    + rewrite dropWhileEnd_cons_keep, collapse_cons_keep by done.
      simpl. by rewrite Hc.
  - apply dropWhileEnd_collapse, dropWhileEnd_idem.
  - apply collapse_idem.
Qed.

Lemma forallb_replaceNonWordRuns (b : bool) (s : jsstring) :
  forallb isWord (replaceNonWordRuns b s) = true.
Proof.
  revert b. induction s as [|c r IH]; intros b; simpl; [done|].
  destruct (isWord c) eqn:Hc; simpl; [by rewrite Hc, IH|].
  destruct b; simpl; by rewrite ?IH.
Qed.

Lemma sanitize_normalForm (x : jsstring) :
  normalForm (sanitizeSqlIdentifier x) /\ sanitizeSqlIdentifier x <> [].
Proof.
  unfold sanitizeSqlIdentifier.
  set (s := replaceNonWordRuns false (toLowerCase (trim x))).
  set (s' := if isEmpty s || startsWithDigit s then lit "col_" ++ s else s).
  assert (Hw : forallb isWord s' = true).
  { unfold s'. pose proof (forallb_replaceNonWordRuns false
                             (toLowerCase (trim x))) as Hs. fold s in Hs.
    destruct (isEmpty s || startsWithDigit s); [|done].
    rewrite forallb_app, Hs. reflexivity. }
  pose proof (normalForm_collapse_strip s' Hw) as Hnf. cbv zeta.
  fold s. fold s'.
  destruct (collapseUnderscores (stripUnderscores s')) as [|c r] eqn:Hy;
    simpl.
  - split; [|discriminate]. repeat split; reflexivity.
  - split; [exact Hnf | discriminate].
Qed.

Ltac bool_to_prop :=
  rewrite ?orb_true_iff, ?andb_true_iff, ?N.leb_le, ?N.eqb_eq in *.

Lemma isWord_range (c : N) :
  isWord c = true <-> (97 <= c <= 122) \/ (48 <= c <= 57) \/ c = 95.
Proof. unfold isWord, isLower, isDigit, us. bool_to_prop. lia. Qed.

Lemma isWord_not_space (c : N) : isWord c = true -> isSpace c = false.
Proof.
  intros Hc%isWord_range. apply not_true_is_false. intros Hs.
  unfold isSpace in Hs. bool_to_prop. lia.
Qed.

Lemma isWord_lowerUnit (c : N) : isWord c = true -> lowerUnit c = [c].
Proof.
  intros Hc%isWord_range. unfold lowerUnit.
  assert (isUpper c = false) as ->.
  { apply not_true_is_false. intros Hu. unfold isUpper in Hu.
    bool_to_prop. lia. }
  assert ((c =? 304) = false) as -> by (apply N.eqb_neq; lia).
  assert ((c =? 8490) = false) as -> by (apply N.eqb_neq; lia).
  reflexivity.
Qed.

Lemma words_trim (y : jsstring) : forallb isWord y = true -> trim y = y.
Proof.
  intros Hw. unfold trim.
  assert (Hns : forallb (fun c => negb (isSpace c)) y = true).
  { apply (forallb_weaken isWord); [|exact Hw].
    intros c Hc. by rewrite (isWord_not_space c Hc). }
  rewrite (dropWhile_forall_false _ _ Hns).
  by apply dropWhileEnd_forall_false.
Qed.

Lemma words_toLowerCase (y : jsstring) :
  forallb isWord y = true -> toLowerCase y = y.
Proof.
  unfold toLowerCase. induction y as [|c r IH]; simpl; [done|].
  intros [Hc Hr]%andb_prop. rewrite (isWord_lowerUnit c Hc), IH by done.
  reflexivity.
Qed.

Lemma words_replaceNonWordRuns (b : bool) (y : jsstring) :
  forallb isWord y = true -> replaceNonWordRuns b y = y.
Proof.
  revert b. induction y as [|c r IH]; intros b; simpl; [done|].
  intros [Hc Hr]%andb_prop. rewrite Hc, IH by done. reflexivity.
Qed.

(** A string in normal form that is not empty and does not start with a
    digit is a fixed point. *)
Lemma sanitize_fixed (y : jsstring) :
  normalForm y -> y <> [] -> startsWithDigit y = false ->
  sanitizeSqlIdentifier y = y.
Proof.
  intros (Hw & Hl & Hr & Hc) Hne Hd. unfold sanitizeSqlIdentifier.
  rewrite (words_trim y Hw), (words_toLowerCase y Hw),
    (words_replaceNonWordRuns false y Hw), Hd.
  destruct y as [|c r]; [done|]. cbn [isEmpty orb].
  unfold stripUnderscores. rewrite Hl, Hr, Hc. reflexivity.
Qed.

(** The result is never empty, holds word characters only, and starts
    with a small letter or with a digit; it has the shape
    [^[a-z][a-z0-9_]*$] exactly when it does not start with a digit. *)
Lemma sanitize_shape (x : jsstring) :
  let y := sanitizeSqlIdentifier x in
  y <> []
  /\ forallb isWord y = true
  /\ matchesIdentifier y = negb (startsWithDigit y).
Proof.
  intros y. destruct (sanitize_normalForm x) as [(Hw & Hl & _ & _) Hne].
  fold y in Hw, Hl, Hne. repeat split; [done..|].
  destruct y as [|c r]; [done|]. simpl in *.
  apply andb_prop in Hw as [Hc Hr]. rewrite Hr, andb_true_r.
  destruct (isUnderscore c) eqn:Hu.
  - exfalso. assert (Hlen : forall t, (length (dropWhile isUnderscore t)
                                       <= length t)%nat).
    { clear. induction t as [|d t IH]; simpl; [done|].
      destruct (isUnderscore d); simpl; lia. }
    specialize (Hlen r). rewrite Hl in Hlen. simpl in Hlen. lia.
  - apply isWord_range in Hc. apply N.eqb_neq in Hu. unfold us in Hu.
    destruct (isLower c) eqn:Hlow, (isDigit c) eqn:Hdig; try reflexivity;
      exfalso.
    + unfold isLower, isDigit in *. bool_to_prop. lia.
    + apply not_true_iff_false in Hlow, Hdig.
      unfold isLower, isDigit in *. bool_to_prop. lia.
Qed.

(** Apart from results that start with a digit, a second pass changes
    nothing. *)
Lemma sanitize_idempotent_unless_digit (x : jsstring) :
  startsWithDigit (sanitizeSqlIdentifier x) = false ->
  sanitizeSqlIdentifier (sanitizeSqlIdentifier x) = sanitizeSqlIdentifier x.
Proof.
  intros Hd. destruct (sanitize_normalForm x) as [Hnf Hne].
  by apply sanitize_fixed.
Qed.

(** ** Type detection *)

Section Detection.
Context {R : JsNumber}.

(** The [DATE] branch of the chain comes after the branch that accepts a
    mix of dates and date-times, which every all-dates sample passes: no
    sample is given the type [DATE]. *)
Lemma chooseType_never_DATE (nonNull : list (cell R)) :
  chooseType nonNull <> DATE.
Proof.
  unfold chooseType.
  repeat (match goal with
          | |- context [if ?b then _ else _] => destruct b eqn:?
          end; try discriminate).
  exfalso.
  match goal with
  | H : forallb isIsoDate nonNull = true,
    H' : forallb (fun v => isIsoDateTime v || isIsoDate v) nonNull = false
    |- _ =>
      rewrite (forallb_weaken isIsoDate _ nonNull) in H'; [discriminate| |exact H]
  end.
  intros x Hx. rewrite Hx. apply orb_true_r.
Qed.

(** C3: a column whose only sampled value is [2024-01-01], which matches
    the plain date shape and not the date-time shape, is given the type
    [DATETIME], not [DATE]. *)
Theorem C3_plain_dates_typed_datetime :
  let v : cell R := CString (lit "2024-01-01") in
  let rows : list (gmap jsstring (cell R)) := [ {[ lit "d" := v ]} ] in
  nonNullValues (columnValues (sampleRows rows) (lit "d")) = [v]
  /\ isIsoDate v = true
  /\ isIsoDateTime v = false
  /\ map type (columns (inferTableSchema [Some (lit "d")] rows)) = [DATETIME].
Proof. repeat split; reflexivity. Qed.

(** *** Nullability *)

Lemma filter_length_lt {A} (p : A -> bool) (l : list A) :
  (length (List.filter p l) < length l)%nat <->
  exists x, In x l /\ p x = false.
Proof.
  induction l as [|a l IH]; simpl.
  - split; [lia | intros (x & [] & _)].
  - pose proof (filter_length_le p l) as Hle.
    destruct (p a) eqn:Ha; simpl.
    + rewrite <- Nat.succ_lt_mono, IH. split.
      * intros (x & Hx & Hp). eauto.
      * intros (x & [-> | Hx] & Hp); [congruence | eauto].
    + split; [intros _; eauto | intros _; lia].
Qed.

Lemma detectColumn_nullable (sample : list (gmap jsstring (cell R)))
    (c : ColumnSchema) :
  nullable (detectColumn sample c) = true <->
  exists r, In r sample
    /\ (rowGet r (originalHeader c) = CNull
        \/ rowGet r (originalHeader c) = CString []).
Proof.
  unfold detectColumn; simpl. rewrite Nat.ltb_lt.
  unfold nonNullValues. rewrite filter_length_lt. unfold columnValues.
  split.
  - intros (v & [Hin Hdef]%filter_In & Hnn).
    apply in_map_iff in Hin as (r & <- & Hr). exists r. split; [done|].
    destruct (rowGet r (originalHeader c)) as [| |[|]| | |]; simpl in *;
      try discriminate; auto.
  - intros (r & Hr & Hv). exists (rowGet r (originalHeader c)). split.
    + apply filter_In. split; [apply in_map_iff; eauto|].
      destruct Hv as [-> | ->]; reflexivity.
    + destruct Hv as [-> | ->]; reflexivity.
Qed.

Lemma inferTableSchema_columns (headers : list (option jsstring))
    (rows : list (gmap jsstring (cell R))) (col : ColumnSchema) :
  In col (columns (inferTableSchema headers rows)) ->
  exists c, In c (nameColumns ∅ headers)
    /\ col = detectColumn (sampleRows rows) c.
Proof.
  unfold inferTableSchema; simpl. intros (c & <- & Hc)%in_map_iff. eauto.
Qed.

(** C4 (amended): the flag of a column is the comparison of the number of
    non-null, non-empty values with the number of defined values read
    under its header in the sample; it is true exactly when some sampled
    row holds [null] or the empty string under that header.  Rows that
    lack the header are not counted. *)
Theorem C4_nullable_iff_null_or_empty (headers : list (option jsstring))
    (rows : list (gmap jsstring (cell R))) (col : ColumnSchema) :
  In col (columns (inferTableSchema headers rows)) ->
  let values := columnValues (sampleRows rows) (originalHeader col) in
  nullable col = (length (nonNullValues values) <? length values)%nat
  /\ (nullable col = true <->
      exists r, In r (sampleRows rows)
        /\ (rowGet r (originalHeader col) = CNull
            \/ rowGet r (originalHeader col) = CString [])).
Proof.
  intros (c & _ & ->)%inferTableSchema_columns. split.
  - reflexivity.
  - exact (detectColumn_nullable (sampleRows rows) c).
Qed.

(** ** Row encoding *)

(** C10: in a column of type [BOOLEAN], a cell that is neither [null] nor
    [undefined] nor the empty string, and whose trimmed lower-cased text is
    none of [true], [yes], [y], [1], is encoded as the number 0, whatever
    the text is. *)
Theorem C10_boolean_cell_encodes_zero (row : gmap jsstring (cell R))
    (hs : list (option jsstring)) (schema : TableSchema) (i : nat)
    (col : ColumnSchema) :
  columns schema !! i = Some col ->
  type col = BOOLEAN ->
  isNullish (rowGet row (originalHeader col)) = false ->
  isEmptyString (rowGet row (originalHeader col)) = false ->
  includes truthyTokens
    (toLowerCase (trim (toStr (rowGet row (originalHeader col))))) = false ->
  mapRowToSqlColumns row hs schema !! i = Some (PNumber (numOfZ 0)).
Proof.
  intros Hi Hty Hn He Hf. unfold mapRowToSqlColumns.
  change (encodeColumn row <$> columns schema) with
    (fmap (encodeColumn row) (columns schema)).
  rewrite list_lookup_fmap, Hi. simpl. f_equal.
  unfold encodeColumn. rewrite Hn, He, Hty. cbn [orb]. rewrite Hf. reflexivity.
Qed.

End Detection.

(** A source with one header [a] and two rows, the second lacking [a]:
    a sampled value is absent, and the column is not nullable. *)
Lemma C4_absent_value_not_nullable :
  let a := lit "a" in
  let rows : list (gmap jsstring (cell integerRuntime)) :=
    [ {[ a := CString (lit "1") ]}; ∅ ] in
  (exists r, In r (sampleRows rows) /\ rowGet r a = CUndefined)
  /\ map originalHeader (columns (inferTableSchema [Some a] rows)) = [a]
  /\ map nullable (columns (inferTableSchema [Some a] rows)) = [false].
Proof.
  repeat split; [|reflexivity..].
  exists ∅. split; [right; left; reflexivity | reflexivity].
Qed.

Lemma C4_witness :
  let a := lit "a" in
  let rows : list (gmap jsstring (cell integerRuntime)) :=
    [ {[ a := CString (lit "x") ]}; {[ a := CString [] ]} ] in
  let col := {| name := a; originalHeader := a; type := LONGTEXT;
                varcharLength := None; nullable := true |} in
  let values := columnValues (sampleRows rows) (originalHeader col) in
  nullable col = (length (nonNullValues values) <? length values)%nat
  /\ (nullable col = true <->
      exists r, In r (sampleRows rows)
        /\ (rowGet r (originalHeader col) = CNull
            \/ rowGet r (originalHeader col) = CString [])).
Proof.
  intros a rows col.
  apply (C4_nullable_iff_null_or_empty [Some a] rows col).
  left. reflexivity.
Defined.

Lemma C10_witness :
  let row : gmap jsstring (cell integerRuntime) :=
    {[ lit "flag" := CString (lit "maybe") ]} in
  let col := {| name := lit "flag"; originalHeader := lit "flag";
                type := BOOLEAN; varcharLength := None; nullable := true |} in
  mapRowToSqlColumns row [Some (lit "flag")] {| columns := [col] |} !! 0%nat
  = Some (PNumber (numOfZ 0)).
Proof.
  intros row col.
  apply (C10_boolean_cell_encodes_zero row _ {| columns := [col] |} 0 col);
    reflexivity.
Defined.

(** ** Unique column names *)

Lemma withSuffixes_length_S (base : jsstring) (k : nat) :
  (length (withSuffixes base k) < length (withSuffixes base (S k)))%nat.
Proof. simpl. rewrite length_app. simpl. lia. Qed.

(** The renaming loop ends: every round leaves one used name fewer that is
    as long as the candidate. *)
Lemma dedupLoop_total (fuel : nat) (used : gset jsstring) (name : jsstring)
    (suffix : N) :
  (size (notShorter name used) <= fuel)%nat ->
  is_Some (dedupLoop fuel used name suffix).
Proof.
  revert name suffix. induction fuel as [|fuel IH]; intros name suffix Hsz;
    simpl; case_bool_decide as Hin; eauto.
  - exfalso. assert (Hemp : notShorter name used ≡ ∅)
      by (apply size_empty_iff; lia).
    assert (name ∈ notShorter name used) as Hn
      by (apply elem_of_filter; split; [lia | done]).
    rewrite Hemp in Hn. set_solver.
  - apply IH.
    assert (notShorter (name ++ us :: decimal suffix) used
            ⊂ notShorter name used) as Hsub.
    { split.
      - intros x [Hx Hu]%elem_of_filter. apply elem_of_filter.
        rewrite length_app in Hx. simpl in Hx. split; [lia | done].
      - intros Hsub.
        assert (name ∈ notShorter (name ++ us :: decimal suffix) used) as Hn.
        { apply Hsub, elem_of_filter. split; [lia | done]. }
        apply elem_of_filter in Hn as [Hlen _].
        rewrite length_app in Hlen. simpl in Hlen. lia. }
    apply subset_size in Hsub. lia.
Qed.

Lemma uniqueName_total (used : gset jsstring) (name : jsstring) :
  is_Some (dedupLoop (size used) used name 1).
Proof.
  apply dedupLoop_total, subseteq_size.
  intros x [_ Hx]%elem_of_filter. done.
Qed.

Lemma dedupLoop_unfold (fuel : nat) (used : gset jsstring) (name : jsstring)
    (suffix : N) :
  dedupLoop fuel used name suffix =
  if bool_decide (name ∈ used) then
    match fuel with
    | O => None
    | S fuel' =>
        dedupLoop fuel' used (name ++ us :: decimal suffix) (suffix + 1)
    end
  else Some name.
Proof. destruct fuel; reflexivity. Qed.

(** What the loop returns: the first candidate that is not used. *)
Lemma dedupLoop_Some (fuel : nat) (used : gset jsstring) (base : jsstring)
    (k : nat) (n : jsstring) :
  dedupLoop fuel used (withSuffixes base k) (N.of_nat (S k)) = Some n ->
  exists m, (k <= m)%nat /\ n = withSuffixes base m /\ (n ∉ used)
    /\ forall j, (k <= j < m)%nat -> withSuffixes base j ∈ used.
Proof.
  revert k. induction fuel as [|fuel IH]; intros k; rewrite dedupLoop_unfold;
    case_bool_decide as Hin; try discriminate.
  - intros [= <-]. exists k. repeat split; [lia | done | intros j Hj; lia].
  - replace (N.of_nat (S k) + 1) with (N.of_nat (S (S k))) by lia.
    change (withSuffixes base k ++ us :: decimal (N.of_nat (S k)))
      with (withSuffixes base (S k)).
    intros (m & Hm & -> & Hnot & Hused)%IH. exists m.
    repeat split; [lia | done |].
    intros j Hj. destruct (decide (j = k)) as [-> | Hne]; [done|].
    apply Hused. lia.
  - intros [= <-]. exists k. repeat split; [lia | done | intros j Hj; lia].
Qed.

Lemma uniqueName_spec (used : gset jsstring) (base : jsstring) :
  exists k, uniqueName used base = withSuffixes base k
    /\ (uniqueName used base ∉ used)
    /\ forall j, (j < k)%nat -> withSuffixes base j ∈ used.
Proof.
  unfold uniqueName.
  destruct (uniqueName_total used base) as [n Hn]. rewrite Hn. simpl.
  apply (dedupLoop_Some _ _ base 0) in Hn as (m & _ & -> & Hnot & Hused).
  exists m. repeat split; [done|]. intros j Hj. apply Hused. lia.
Qed.

(** The first pass of [inferTableSchema], from any set of used names. *)
Lemma nameColumns_spec (headers : list (option jsstring))
    (used : gset jsstring) :
  let names := map name (nameColumns used headers) in
  length names = length headers
  /\ NoDup names
  /\ (forall n, n ∈ names -> n ∉ used)
  /\ forall (i : nat) (h : option jsstring), headers !! i = Some h ->
       let base := sanitizeSqlIdentifier (default (lit "column") h) in
       exists k, names !! i = Some (withSuffixes base k)
         /\ forall j, (j < k)%nat ->
              withSuffixes base j ∈ used
              \/ withSuffixes base j ∈ take i names.
Proof.
  revert used. induction headers as [|h headers IH]; intros used; simpl.
  - repeat split; [constructor | intros n Hn; inversion Hn | intros i h' [=]].
  - set (base := sanitizeSqlIdentifier (default (lit "column") h)).
    destruct (uniqueName_spec used base) as (k & Hk & Hfresh & Hused).
    destruct (IH ({[uniqueName used base]} ∪ used))
      as (Hlen & Hnd & Hnot & Hstruct).
    repeat split.
    + f_equal. exact Hlen.
    + apply NoDup_cons. split; [|exact Hnd].
      intros Hin. apply Hnot in Hin. apply Hin.
      apply elem_of_union_l, elem_of_singleton. reflexivity.
    + intros n [-> | Hn]%elem_of_cons; [done|].
      apply Hnot in Hn. intros Hu. apply Hn, elem_of_union_r, Hu.
    + intros [|i] h' Hi; simpl in *.
      * injection Hi as <-. exists k. split; [by rewrite Hk|].
        intros j Hj. left. auto.
      * destruct (Hstruct i h' Hi) as (k' & Hk' & Hj'). exists k'.
        split; [exact Hk'|]. intros j Hj.
        destruct (Hj' j Hj) as [[Heq%elem_of_singleton | Hu]%elem_of_union | Ht].
        -- right. rewrite Heq. apply elem_of_cons. by left.
        -- by left.
        -- right. apply elem_of_cons. by right.
Qed.

Section Names.
Context {R : JsNumber}.

Lemma inferTableSchema_names (headers : list (option jsstring))
    (rows : list (gmap jsstring (cell R))) :
  map name (columns (inferTableSchema headers rows))
  = map name (nameColumns ∅ headers).
Proof.
  unfold inferTableSchema; simpl. rewrite map_map. reflexivity.
Qed.

(** The schema has one column per header, the column names are pairwise
    distinct, and the name of each column is the sanitized header followed
    by [_1], [_2], ... up to some [_k] ([k] may be 0), each appended to the
    candidate before it, every shorter candidate being the name of an
    earlier column. *)
Theorem inferTableSchema_names_distinct (headers : list (option jsstring))
    (rows : list (gmap jsstring (cell R))) :
  let names := map name (columns (inferTableSchema headers rows)) in
  length names = length headers
  /\ NoDup names
  /\ forall (i : nat) (h : option jsstring), headers !! i = Some h ->
       let base := sanitizeSqlIdentifier (default (lit "column") h) in
       exists k, names !! i = Some (withSuffixes base k)
         /\ forall j, (j < k)%nat -> withSuffixes base j ∈ take i names.
Proof.
  cbv zeta. rewrite inferTableSchema_names.
  destruct (nameColumns_spec headers ∅) as (Hlen & Hnd & _ & Hstruct).
  repeat split; [exact Hlen | exact Hnd |].
  intros i h Hi. destruct (Hstruct i h Hi) as (k & Hk & Hj).
  exists k. split; [exact Hk|]. intros j Hlt.
  destruct (Hj j Hlt) as [Hemp | Ht]; [set_solver | exact Ht].
Qed.

(** C7: three equal headers [a] are named [a], [a_1] and [a_1_2].  The
    loop appends the counter to the candidate it has just tried, not to
    the sanitized header, so the third name is not [a_2]. *)
Theorem C7_equal_headers_cumulative_suffix
    (rows : list (gmap jsstring (cell R))) :
  let a := Some (lit "a") in
  let names := map name (columns (inferTableSchema [a; a; a] rows)) in
  names = [lit "a"; lit "a_1"; lit "a_1_2"]
  /\ names !! 2%nat <> Some (lit "a_2").
Proof.
  cbv zeta. rewrite inferTableSchema_names.
  assert (Hn : map name (nameColumns ∅ [Some (lit "a"); Some (lit "a");
                                         Some (lit "a")])
               = [lit "a"; lit "a_1"; lit "a_1_2"]) by reflexivity.
  rewrite Hn. split; [reflexivity | discriminate].
Qed.

End Names.

(** ** The pipelines *)

Section PipelineFacts.
Context {R : JsNumber} {D : Store}.

Lemma exec_eq (stmt : Stmt) (w : World) (c : conn)
    (r : SqlError + QueryResult) :
  query (db w) stmt = (c, r) ->
  exec stmt w = ({| db := c; sent := sent w ++ [stmt] |}, r).
Proof. unfold exec. intros ->. reflexivity. Qed.

Lemma bind_eq {A B} (m : M A) (k : A -> M B) (w : World) :
  (m ≫= k) w =
  match m w with
  | (w', inl e) => (w', inl e)
  | (w', inr a) => k a w'
  end.
Proof. reflexivity. Qed.

(** C8: under the policy [fail], when the store answers the existence
    check for the target table with at least one row, [importDataToTable]
    sends the check and the update of the file's status to [failed] and
    nothing else.  The [/upload_old] route, once it has registered a file
    that has rows, sends the check and that update (once more from its
    [catch] when the store rejects the update).  No drop, create, alter or
    insert is sent on either path. *)
Theorem C8_fail_policy_existing_table (file : FileRecord)
    (suggested explicit ext : jsstring) (parsed : ParsedData)
    (nullability : Nullability) (c c0 c1 : conn) (q0 q : QueryResult) :
  let t := sanitizeSqlIdentifier (orElse (Some explicit) suggested) in
  let check := ShowTablesLike t in
  let failed := UpdateFileStatus Failed (id file) in
  let import := importDataToTable file suggested parsed Fail (Some explicit) in
  let route :=
    uploadOldFile file ext (Some parsed) suggested Fail explicit nullability in
  query c0 check = (c1, inr q) ->
  nonEmptyArray q = true ->
  (sentBy import c0 = [check; failed]
   /\ existsb (fun s => isDDL s || isInsert s) (sentBy import c0) = false)
  /\ (rows parsed <> [] ->
      supportedExt ext = true ->
      query c (UpsertFile file Processing) = (c0, inr q0) ->
      sentBy route c
      = [UpsertFile file Processing; check; failed]
        ++ match query c1 failed with
           | (_, inl _) => [failed]
           | (_, inr _) => []
           end
      /\ existsb (fun s => isDDL s || isInsert s) (sentBy route c) = false).
Proof.
  intros t check failed import route Hshow Hq.
  assert (Himp : sentBy import c0 = [check; failed]).
  { unfold import, sentBy, run, importDataToTable. simpl.
    rewrite !bind_eq. simpl. rewrite !bind_eq.
    erewrite exec_eq by (simpl; exact Hshow). simpl. rewrite Hq.
    rewrite !bind_eq. unfold exec. simpl.
    destruct (query c1 (UpdateFileStatus Failed (id file))) as [c2 [e|q2]];
      reflexivity. }
  split; [by rewrite Himp|].
  intros Hrows Hext Hup.
  assert (Hold : sentBy route c
                 = [UpsertFile file Processing; check; failed]
                   ++ match query c1 failed with
                      | (_, inl _) => [failed]
                      | (_, inr _) => []
                      end).
  { unfold route, sentBy, run, uploadOldFile. simpl.
    rewrite bind_eq. erewrite exec_eq by (simpl; exact Hup). simpl.
    rewrite Hext. simpl.
    destruct (rows parsed) as [|r0 rs] eqn:Hr; [done|]. simpl.
    unfold tryCatch. rewrite !bind_eq. simpl. rewrite !bind_eq.
    erewrite exec_eq by (simpl; exact Hshow). simpl. rewrite Hq.
    rewrite !bind_eq. unfold exec at 1. simpl. fold failed.
    destruct (query c1 failed) as [c2 [e|q2]]; simpl; [|reflexivity].
    rewrite bind_eq. unfold exec. simpl. fold failed.
    destruct (query c2 failed) as [c3 [e'|q3]]; reflexivity. }
  rewrite Hold. split; [reflexivity|].
  destruct (query c1 failed) as [c2 [e|q2]]; reflexivity.
Qed.

(** *** Batches *)

#[local] Arguments batchSize : simpl never.

Lemma batchesFrom_unfold {A} (fuel i : nat) (xs : list A) :
  batchesFrom (S fuel) i xs =
  if (i <? length xs)%nat
  then slice i (i + batchSize) xs :: batchesFrom fuel (i + batchSize) xs
  else [].
Proof. reflexivity. Qed.

(** The bound on the rounds is never what ends the loop. *)
Lemma batchesFrom_fuel {A} (fuel fuel' i : nat) (xs : list A) :
  (length xs - i <= fuel)%nat -> (length xs - i <= fuel')%nat ->
  batchesFrom fuel i xs = batchesFrom fuel' i xs.
Proof.
  revert fuel' i. induction fuel as [|fuel IH]; intros [|fuel'] i H1 H2;
    try reflexivity.
  - rewrite batchesFrom_unfold.
    destruct (Nat.ltb_spec i (length xs)); [lia | reflexivity].
  - rewrite batchesFrom_unfold.
    destruct (Nat.ltb_spec i (length xs)); [lia | reflexivity].
  - rewrite !batchesFrom_unfold.
    destruct (Nat.ltb_spec i (length xs)); [|reflexivity].
    f_equal. apply IH; unfold batchSize; lia.
Qed.

Lemma batchesFrom_concat {A} (fuel i : nat) (xs : list A) :
  (length xs - i <= fuel)%nat ->
  concat (batchesFrom fuel i xs) = drop i xs.
Proof.
  revert i. induction fuel as [|fuel IH]; intros i Hf.
  - simpl. rewrite drop_ge; [done | lia].
  - rewrite batchesFrom_unfold.
    destruct (Nat.ltb_spec i (length xs)).
    + simpl. rewrite IH by (unfold batchSize; lia).
      unfold slice. replace (i + batchSize - i)%nat with batchSize by lia.
      rewrite <- drop_drop. apply take_drop.
    + simpl. rewrite drop_ge; [done | lia].
Qed.

Lemma batchesFrom_lookup {A} (fuel i k : nat) (xs : list A) (b : list A) :
  batchesFrom fuel i xs !! k = Some b ->
  b = slice (i + k * batchSize) (i + k * batchSize + batchSize) xs
  /\ (i + k * batchSize < length xs)%nat.
Proof.
  revert i k b. induction fuel as [|fuel IH]; intros i k b; [done|].
  rewrite batchesFrom_unfold.
  destruct (Nat.ltb_spec i (length xs)); [|done].
  destruct k as [|k]; simpl.
  - intros [= <-]. rewrite Nat.add_0_r. done.
  - intros [-> Hlt]%IH.
    replace (i + batchSize + k * batchSize)%nat
      with (i + (batchSize + k * batchSize))%nat in * by lia.
    split; [reflexivity | exact Hlt].
Qed.

Lemma batchesFrom_length {A} (fuel i : nat) (xs : list A) :
  (length xs - i <= fuel)%nat ->
  length (batchesFrom fuel i xs)
  = ((length xs - i + (batchSize - 1)) / batchSize)%nat.
Proof.
  revert i. induction fuel as [|fuel IH]; intros i Hf.
  - simpl. replace (length xs - i)%nat with 0%nat by lia. reflexivity.
  - rewrite batchesFrom_unfold.
    destruct (Nat.ltb_spec i (length xs)).
    + cbn [length]. rewrite IH by (unfold batchSize; lia).
      unfold batchSize in *. change (500 - 1)%nat with 499%nat.
      destruct (Nat.le_gt_cases 500 (length xs - i)).
      * replace (length xs - i + 499)%nat
          with ((length xs - (i + 500) + 499) + 1 * 500)%nat by lia.
        rewrite Nat.div_add by lia. lia.
      * replace (length xs - (i + 500))%nat with 0%nat by lia.
        change ((0 + 499) / 500)%nat with 0%nat.
        apply (Nat.div_unique _ _ 1 (length xs - i - 1)); lia.
    + simpl. replace (length xs - i)%nat with 0%nat by lia. reflexivity.
Qed.

Lemma slice_length {A} (i j : nat) (xs : list A) :
  length (slice i j xs) = Nat.min (j - i) (length xs - i).
Proof. unfold slice. rewrite length_take, length_drop. reflexivity. Qed.

(** The batches of a row sequence: they are the consecutive slices of 500
    rows, they add up to the sequence, and only the last may be shorter. *)
Lemma batches_spec {A} (xs : list A) :
  concat (batches xs) = xs
  /\ length (batches xs) = ((length xs + 499) / 500)%nat
  /\ forall (k : nat) (b : list A), batches xs !! k = Some b ->
       b = slice (k * 500) (k * 500 + 500) xs
       /\ length b = Nat.min 500 (length xs - k * 500)
       /\ (0 < length b)%nat.
Proof.
  unfold batches. repeat split.
  - rewrite batchesFrom_concat by lia. reflexivity.
  - rewrite batchesFrom_length by lia. rewrite Nat.sub_0_r. reflexivity.
  - apply batchesFrom_lookup in H as [-> _]. reflexivity.
  - apply batchesFrom_lookup in H as [-> Hlt]. rewrite slice_length.
    unfold batchSize in *. f_equal; lia.
  - apply batchesFrom_lookup in H as [-> Hlt]. rewrite slice_length.
    unfold batchSize in *. lia.
Qed.

Lemma batches_1200 {A} (xs : list A) :
  length xs = 1200%nat -> map length (batches xs) = [500; 500; 200]%nat.
Proof.
  intros Hlen. destruct (batches_spec xs) as (_ & Hn & Hk).
  rewrite Hlen in Hn. change ((1200 + 499) / 500)%nat with 3%nat in Hn.
  destruct (batches xs) as [|b0 [|b1 [|b2 [|b3 bs]]]]; try discriminate.
  destruct (Hk 0%nat b0 eq_refl) as (_ & H0 & _).
  destruct (Hk 1%nat b1 eq_refl) as (_ & H1 & _).
  destruct (Hk 2%nat b2 eq_refl) as (_ & H2 & _).
  simpl. rewrite H0, H1, H2, Hlen. reflexivity.
Qed.

(** *** The batch loop on a store that accepts everything *)

Lemma batchValues_flat_length (parsed : ParsedData) (schema : TableSchema)
    (batch : list (gmap jsstring (cell R))) :
  length (concat (batchValues parsed schema batch))
  = (length batch * length (columns schema))%nat.
Proof.
  unfold batchValues. induction batch as [|r batch IH]; simpl; [done|].
  rewrite length_app, IH. unfold mapRowToSqlColumns.
  rewrite length_map. reflexivity.
Qed.

Lemma inferTableSchema_length (hs : list (option jsstring))
    (rs : list (gmap jsstring (cell R))) :
  length (columns (inferTableSchema hs rs)) = length hs.
Proof.
  pose proof (nameColumns_spec hs ∅) as [Hlen _].
  rewrite <- (inferTableSchema_names hs rs), length_map in Hlen. exact Hlen.
Qed.

Lemma exec_quiet (Hq : quiet) (stmt : Stmt) (w : World) :
  exists c q, exec stmt w = ({| db := c; sent := sent w ++ [stmt] |}, inr q)
    /\ nonEmptyArray q = false.
Proof.
  destruct (Hq (db w) stmt) as (c & q & Hc & Hn).
  exists c, q. split; [by apply exec_eq | done].
Qed.

Lemma importBatch_quiet (Hq : quiet) (t : jsstring) (parsed : ParsedData)
    (schema : TableSchema) (batch : list (gmap jsstring (cell R)))
    (w : World) :
  (0 < length batch * length (columns schema))%nat ->
  exists c, importBatch t parsed schema batch w
    = ({| db := c;
          sent := sent w ++ [insertStatement t parsed schema batch] |},
       inr tt).
Proof.
  intros Hpos. unfold importBatch. cbv zeta.
  rewrite batchValues_flat_length.
  destruct (Nat.ltb_spec 0 (length batch * length (columns schema)));
    [|lia].
  rewrite bind_eq.
  destruct (exec_quiet Hq (insertStatement t parsed schema batch) w)
    as (c & q & -> & _).
  exists c. reflexivity.
Qed.

Lemma uploadOldBatch_quiet (Hq : quiet) (t : jsstring) (parsed : ParsedData)
    (schema : TableSchema) (batch : list (gmap jsstring (cell R)))
    (w : World) :
  (0 < length batch * length (columns schema))%nat ->
  exists c, uploadOldBatch t parsed schema batch w
    = ({| db := c;
          sent := sent w ++ [insertStatement t parsed schema batch] |},
       inr tt).
Proof.
  intros Hpos. unfold uploadOldBatch. cbv zeta.
  rewrite batchValues_flat_length.
  destruct (Nat.ltb_spec 0 (length batch * length (columns schema)));
    [|lia].
  unfold tryCatch. rewrite bind_eq.
  destruct (exec_quiet Hq (insertStatement t parsed schema batch) w)
    as (c & q & -> & _).
  exists c. reflexivity.
Qed.

(** A loop whose body sends the insert of its batch sends the inserts of
    all batches, in order. *)
Lemma forBatches_inserts (body : list (gmap jsstring (cell R)) -> M unit)
    (mk : list (gmap jsstring (cell R)) -> Stmt)
    (rs : list (gmap jsstring (cell R))) :
  (forall batch w, (0 < length batch)%nat ->
     exists c, body batch w
       = ({| db := c; sent := sent w ++ [mk batch] |}, inr tt)) ->
  forall fuel i w,
    exists c, forBatches body fuel i rs w
      = ({| db := c; sent := sent w ++ map mk (batchesFrom fuel i rs) |},
         inr tt).
Proof.
  intros Hbody. induction fuel as [|fuel IH]; intros i w.
  - exists (db w). simpl. rewrite app_nil_r. destruct w; reflexivity.
  - cbn [forBatches]. rewrite batchesFrom_unfold.
    destruct (Nat.ltb_spec i (length rs)) as [Hlt|Hge].
    + rewrite bind_eq.
      destruct (Hbody (slice i (i + batchSize) rs) w) as (c & ->).
      { rewrite slice_length. unfold batchSize. lia. }
      destruct (IH (i + batchSize)%nat
                  {| db := c;
                     sent := sent w ++ [mk (slice i (i + batchSize) rs)] |})
        as (c' & ->).
      exists c'. simpl. rewrite <- app_assoc. reflexivity.
    + exists (db w). simpl. rewrite app_nil_r. destruct w; reflexivity.
Qed.

Lemma filter_isInsert_inserts (t : jsstring) (parsed : ParsedData)
    (schema : TableSchema) (bs : list (list (gmap jsstring (cell R)))) :
  List.filter isInsert (map (insertStatement t parsed schema) bs)
  = map (insertStatement t parsed schema) bs.
Proof. induction bs as [|b bs IH]; simpl; [done | by rewrite IH]. Qed.

Lemma ret_eq {A} (a : A) (w : World) : ret a w = (w, inr a).
Proof. reflexivity. Qed.

Ltac mstep :=
  repeat first [ rewrite bind_eq | rewrite ret_eq | progress cbn beta iota ].

Ltac quiet_exec Hq :=
  match goal with
  | |- context [exec ?s ?w] =>
      let c := fresh "c" in let q := fresh "q" in
      let Hn := fresh "Hn" in
      destruct (exec_quiet Hq s w) as (c & q & -> & Hn);
      try rewrite Hn
  end.

Ltac quiet_loop Hloop :=
  match goal with
  | |- context [forBatches ?b ?f ?i ?rs ?w] =>
      let c := fresh "c" in destruct (Hloop w) as (c & ->)
  end.

Ltac quiet_run Hq Hloop :=
  repeat first
    [ rewrite bind_eq
    | rewrite ret_eq
    | quiet_exec Hq
    | quiet_loop Hloop
    | progress cbn beta iota ].

Lemma importDataToTable_quiet (Hq : quiet) (file : FileRecord)
    (suggested : jsstring) (parsed : ParsedData) (ifExists : IfExists)
    (explicit : option jsstring) (c : conn) :
  headers parsed <> [] ->
  let t := sanitizeSqlIdentifier (orElse explicit suggested) in
  let schema := inferTableSchema (headers parsed) (rows parsed) in
  List.filter isInsert
    (sentBy (importDataToTable file suggested parsed ifExists explicit) c)
  = map (insertStatement t parsed schema) (batches (rows parsed)).
Proof.
  intros Hh t schema.
  assert (Hcols : (0 < length (columns schema))%nat).
  { unfold schema. rewrite inferTableSchema_length.
    destruct (headers parsed); [done | simpl; lia]. }
  assert (Hloop : forall w, exists c',
    forBatches (importBatch t parsed schema) (length (rows parsed)) 0
      (rows parsed) w
    = ({| db := c';
          sent := sent w ++ map (insertStatement t parsed schema)
                              (batches (rows parsed)) |}, inr tt)).
  { intros w. apply forBatches_inserts. intros batch w' Hb.
    apply importBatch_quiet; [exact Hq | nia]. }
  unfold sentBy, run, importDataToTable. cbn [generateCreateTableSql].
  fold t schema.
  destruct ifExists; quiet_run Hq Hloop; cbn [fst sent db app];
    cbn [List.filter isInsert]; rewrite List.filter_app;
    cbn [List.filter isInsert]; rewrite app_nil_r;
    apply filter_isInsert_inserts.
Qed.

Lemma uploadOldFile_quiet (Hq : quiet) (file : FileRecord)
    (ext suggested explicit : jsstring) (parsed : ParsedData)
    (ifExists : IfExists) (nullability : Nullability) (c : conn) :
  headers parsed <> [] ->
  supportedExt ext = true ->
  let t := sanitizeSqlIdentifier (orElse (Some explicit) suggested) in
  let schema := inferTableSchema (headers parsed) (rows parsed) in
  List.filter isInsert
    (sentBy (uploadOldFile file ext (Some parsed) suggested ifExists explicit
               nullability) c)
  = map (insertStatement t parsed schema) (batches (rows parsed)).
Proof.
  intros Hh Hext t schema.
  assert (Hcols : (0 < length (columns schema))%nat).
  { unfold schema. rewrite inferTableSchema_length.
    destruct (headers parsed); [done | simpl; lia]. }
  assert (Hloop : forall w, exists c',
    forBatches (uploadOldBatch t parsed schema) (length (rows parsed)) 0
      (rows parsed) w
    = ({| db := c';
          sent := sent w ++ map (insertStatement t parsed schema)
                              (batches (rows parsed)) |}, inr tt)).
  { intros w. apply forBatches_inserts. intros batch w' Hb.
    apply uploadOldBatch_quiet; [exact Hq | nia]. }
  unfold sentBy, run, uploadOldFile. cbn [generateCreateTableSql].
  fold t schema. rewrite Hext. cbn [negb].
  destruct (Nat.eqb_spec (length (rows parsed)) 0) as [Hz|Hnz].
  - quiet_run Hq Hloop. apply nil_length_inv in Hz. rewrite Hz. reflexivity.
  - unfold tryCatch.
    destruct ifExists; quiet_run Hq Hloop; cbn [fst sent db app];
      cbn [List.filter isInsert]; rewrite List.filter_app;
      cbn [List.filter isInsert]; rewrite app_nil_r;
      apply filter_isInsert_inserts.
Qed.

(** C9 (amended): for a source with at least one header, on a store that
    accepts every statement and reports no existing table, both pipelines
    send exactly one insert per batch, in order, and nothing else inserts.
    The batches are the consecutive slices of 500 rows: together they are
    the row sequence, batch [k] is [rows.slice(500k, 500k + 500)], none is
    empty and only the last can hold fewer than 500 rows.  A source of 1200
    rows gives three batches of 500, 500 and 200 rows. *)
Theorem C9_one_insert_per_batch (file : FileRecord)
    (ext suggested explicit : jsstring) (parsed : ParsedData)
    (ifExists : IfExists) (nullability : Nullability) (c : conn) :
  quiet ->
  headers parsed <> [] ->
  supportedExt ext = true ->
  let t := sanitizeSqlIdentifier (orElse (Some explicit) suggested) in
  let schema := inferTableSchema (headers parsed) (rows parsed) in
  let inserts :=
    map (insertStatement t parsed schema) (batches (rows parsed)) in
  List.filter isInsert
    (sentBy (importDataToTable file suggested parsed ifExists
               (Some explicit)) c) = inserts
  /\ List.filter isInsert
       (sentBy (uploadOldFile file ext (Some parsed) suggested ifExists
                  explicit nullability) c) = inserts
  /\ concat (batches (rows parsed)) = rows parsed
  /\ length (batches (rows parsed))
     = ((length (rows parsed) + 499) / 500)%nat
  /\ (forall (k : nat) (b : list (gmap jsstring (cell R))),
        batches (rows parsed) !! k = Some b ->
        b = slice (k * 500) (k * 500 + 500) (rows parsed)
        /\ length b = Nat.min 500 (length (rows parsed) - k * 500)
        /\ (0 < length b)%nat)
  /\ (length (rows parsed) = 1200%nat ->
      map length (batches (rows parsed)) = [500; 500; 200]%nat).
Proof.
  intros Hq Hh Hext t schema inserts.
  destruct (batches_spec (rows parsed)) as (Hcat & Hlen & Hk).
  split; [by apply importDataToTable_quiet|].
  split; [by apply uploadOldFile_quiet|].
  split; [exact Hcat|]. split; [exact Hlen|]. split; [exact Hk|].
  apply batches_1200.
Qed.

(** *** Empty sources *)

(** C2: given a source without rows, [importDataToTable] does not set the
    status [empty]: under [append] its first statement is the table
    creation, and when the store accepts it the file is marked processed
    with a row count of 0. *)
Theorem C2_import_empty_source_creates_table (file : FileRecord)
    (suggested : jsstring) (hs : list (option jsstring))
    (explicit : option jsstring) (c : conn) :
  let parsed := {| headers := hs; rows := [] |} in
  let t := sanitizeSqlIdentifier (orElse explicit suggested) in
  let create :=
    CreateTableIfNotExists t
      (snd (generateCreateTableSql t (inferTableSchema hs []) Append
              AllNullable)) in
  let sentStmts :=
    sentBy (importDataToTable file suggested parsed Append explicit) c in
  sentStmts
  = create :: match query c create with
              | (_, inl _) => []
              | (_, inr _) => [UpdateFileProcessed 0 (id file)]
              end
  /\ isDDL create = true
  /\ ~ In (UpdateFileStatus Empty (id file)) sentStmts.
Proof.
  intros parsed t create sentStmts.
  assert (Hs : sentStmts
    = create :: match query c create with
                | (_, inl _) => []
                | (_, inr _) => [UpdateFileProcessed 0 (id file)]
                end).
  { unfold sentStmts, parsed, sentBy, run, importDataToTable.
    cbn [generateCreateTableSql headers rows]. fold t.
    mstep. unfold exec at 1. cbn [db sent].
    change (CreateTableIfNotExists t _) with create.
    destruct (query c create) as [c1 [e|q1]]; [reflexivity|].
    cbn [length forBatches]. mstep. unfold exec. cbn [db sent].
    destruct (query c1 (UpdateFileProcessed 0 (id file))) as [c2 [e|q2]];
      reflexivity. }
  split; [exact Hs|]. split; [reflexivity|].
  rewrite Hs. destruct (query c create) as [c1 [e|q1]];
    intros [H|H]; try discriminate; try destruct H as [H|[]];
    try discriminate; try destruct H.
Qed.

(** The route, by contrast, stops at an empty source before any table
    statement. *)
Lemma uploadOldFile_empty_source (file : FileRecord)
    (ext suggested explicit : jsstring) (hs : list (option jsstring))
    (ifExists : IfExists) (nullability : Nullability) (c c0 : conn)
    (q0 : QueryResult) :
  supportedExt ext = true ->
  query c (UpsertFile file Processing) = (c0, inr q0) ->
  sentBy (uploadOldFile file ext (Some {| headers := hs; rows := [] |})
            suggested ifExists explicit nullability) c
  = [UpsertFile file Processing; UpdateFileStatus Empty (id file)].
Proof.
  intros Hext Hup. unfold sentBy, run, uploadOldFile.
  rewrite bind_eq. erewrite exec_eq by (cbn [db]; exact Hup).
  cbn beta iota. rewrite Hext. cbn [negb rows length Nat.eqb].
  rewrite bind_eq. unfold exec. cbn [db sent].
  destruct (query c0 (UpdateFileStatus Empty (id file))) as [c1 [e|q1]];
    reflexivity.
Qed.

(** *** Repair after a not-null violation *)

Lemma typeStrOf_nonempty (col : ColumnSchema) : isEmpty (typeStrOf col) = false.
Proof.
  unfold typeStrOf. destruct (type col); try reflexivity.
  destruct (varcharLength col) as [n|]; [|reflexivity].
  destruct (n =? 0); reflexivity.
Qed.

(** In the route, an insert rejected with a message that names a column
    of the schema is followed by the alter statement for that column and,
    when the store accepts the alter, by the same insert once more; the
    batch ends as that second insert ends. *)
Lemma uploadOldBatch_repair (t : jsstring) (parsed : ParsedData)
    (schema : TableSchema) (batch : list (gmap jsstring (cell R)))
    (w : World) (c1 c2 : conn) (e : SqlError) (colName : jsstring)
    (col : ColumnSchema) (qa : QueryResult) :
  let ins := insertStatement t parsed schema batch in
  let alter := AlterModifyNull t colName (typeStrOf col) in
  (0 < length batch * length (columns schema))%nat ->
  query (db w) ins = (c1, inl e) ->
  notNullColumn (errorText e) = Some colName ->
  List.find (fun c => eqbStr (name c) colName) (columns schema) = Some col ->
  query c1 alter = (c2, inr qa) ->
  uploadOldBatch t parsed schema batch w
  = ({| db := fst (query c2 ins); sent := sent w ++ [ins; alter; ins] |},
     match snd (query c2 ins) with
     | inl e' => inl e'
     | inr _ => inr tt
     end).
Proof.
  intros ins alter Hpos Hins Hmsg Hfind Halter.
  unfold uploadOldBatch. cbv zeta. rewrite batchValues_flat_length.
  destruct (Nat.ltb_spec 0 (length batch * length (columns schema)));
    [|lia].
  unfold tryCatch. rewrite bind_eq. fold ins.
  erewrite exec_eq by exact Hins. cbn beta iota.
  rewrite Hmsg, Hfind, typeStrOf_nonempty. fold alter.
  rewrite bind_eq, ret_eq. cbn beta iota.
  rewrite bind_eq. erewrite exec_eq by (cbn [db]; exact Halter).
  cbn beta iota. rewrite bind_eq. unfold exec. cbn [db sent].
  destruct (query c2 ins) as [c3 [e'|q3]]; cbn [fst snd];
    rewrite <- !app_assoc; reflexivity.
Qed.

(** *** Statements a computation can send *)

Lemma sendsOnly_ret (P : Stmt -> bool) {A} (a : A) : sendsOnly P (ret a).
Proof. intros w. exists []. rewrite ret_eq, app_nil_r. done. Qed.

Lemma sendsOnly_exec (P : Stmt -> bool) (stmt : Stmt) :
  P stmt = true -> sendsOnly P (exec stmt).
Proof.
  intros HP w. exists [stmt]. unfold exec.
  destruct (query (db w) stmt) as [c r]. simpl. by rewrite HP.
Qed.

Lemma sendsOnly_bind (P : Stmt -> bool) {A B} (m : M A) (k : A -> M B) :
  sendsOnly P m -> (forall a, sendsOnly P (k a)) -> sendsOnly P (m ≫= k).
Proof.
  intros Hm Hk w. rewrite bind_eq. destruct (Hm w) as (x1 & H1 & F1).
  destruct (m w) as [w1 [e|a]]; cbn [fst] in *.
  - exists x1. done.
  - destruct (Hk a w1) as (x2 & H2 & F2). exists (x1 ++ x2).
    rewrite H2, H1, app_assoc, forallb_app, F1, F2. done.
Qed.

Lemma sendsOnly_forBatches (P : Stmt -> bool)
    (body : list (gmap jsstring (cell R)) -> M unit)
    (rs : list (gmap jsstring (cell R))) (fuel i : nat) :
  (forall batch, sendsOnly P (body batch)) ->
  sendsOnly P (forBatches body fuel i rs).
Proof.
  intros Hbody. revert i. induction fuel as [|fuel IH]; intros i;
    cbn [forBatches].
  - apply sendsOnly_ret.
  - destruct (i <? length rs)%nat; [|apply sendsOnly_ret].
    apply sendsOnly_bind; [apply Hbody | intros _; apply IH].
Qed.

(** Whatever the store answers, [importDataToTable] sends no alter
    statement and sends the insert of a batch at most once per round. *)
Lemma importDataToTable_sends_no_alter (file : FileRecord)
    (suggested : jsstring) (parsed : ParsedData) (ifExists : IfExists)
    (explicit : option jsstring) (c : conn) :
  existsb isAlter
    (sentBy (importDataToTable file suggested parsed ifExists explicit) c)
  = false.
Proof.
  assert (Hs : sendsOnly (fun s => negb (isAlter s))
                 (importDataToTable file suggested parsed ifExists explicit)).
  { unfold importDataToTable. cbn [generateCreateTableSql].
    repeat first
      [ apply sendsOnly_bind
      | apply sendsOnly_ret
      | apply sendsOnly_exec; reflexivity
      | apply sendsOnly_forBatches
      | match goal with
        | |- forall _, _ => intro
        | |- sendsOnly _ (match ?x with _ => _ end) => destruct x
        end
      | progress unfold importBatch; cbv zeta ]. }
  unfold sentBy, run. destruct (Hs {| db := c; sent := [] |})
    as (extra & -> & Hx). cbn [sent app].
  induction extra as [|s l IH]; [done|]. simpl in *.
  apply andb_prop in Hx as [Hs' Hl]. rewrite (IH Hl).
  by destruct (isAlter s).
Qed.

(** The bound on the rounds is never what ends the batch loop. *)
Lemma forBatches_fuel (body : list (gmap jsstring (cell R)) -> M unit)
    (fuel fuel' i : nat) (rs : list (gmap jsstring (cell R))) (w : World) :
  (length rs - i <= fuel)%nat -> (length rs - i <= fuel')%nat ->
  forBatches body fuel i rs w = forBatches body fuel' i rs w.
Proof.
  revert fuel' i w. induction fuel as [|fuel IH]; intros [|fuel'] i w H1 H2;
    try reflexivity; cbn [forBatches].
  - destruct (Nat.ltb_spec i (length rs)); [lia | reflexivity].
  - destruct (Nat.ltb_spec i (length rs)); [lia | reflexivity].
  - destruct (Nat.ltb_spec i (length rs)); [|reflexivity].
    rewrite !bind_eq. destruct (body (slice i (i + batchSize) rs) w)
      as [w' [e|[]]]; [reflexivity|].
    apply IH; unfold batchSize; lia.
Qed.

End PipelineFacts.

(** *** Runs on concrete stores *)

(** C1: [importDataToTable] has no handler around its insert.  On a store
    that accepts the table creation and rejects the insert with
    [Column 'a' cannot be null], it sends the creation and the insert and
    ends with that error: no alter statement, no second insert.  The
    [/upload_old] route on the same source and answers sends the alter
    statement and the insert once more. *)
Theorem C1_import_does_not_repair :
  let t := lit "sales" in
  let schema := inferTableSchema (headers sampleParsed) (rows sampleParsed) in
  let create :=
    CreateTableIfNotExists t
      [{| defName := lit "a"; defType := lit "LONGTEXT";
          defAllowNull := true |}] in
  let ins := insertStatement t sampleParsed schema (rows sampleParsed) in
  notNullColumn (errorText notNullError) = Some (lit "a")
  /\ sentBy
       (importDataToTable sampleFile (lit "sales") sampleParsed Append None)
       (script [inr HeaderResult; inl notNullError])
     = [create; ins]
  /\ outcome
       (importDataToTable sampleFile (lit "sales") sampleParsed Append None)
       (script [inr HeaderResult; inl notNullError])
     = inl notNullError
  /\ sentBy
       (uploadOldFile sampleFile (lit ".csv") (Some sampleParsed)
          (lit "sales") Append [] AllNullable)
       (script [inr HeaderResult; inr HeaderResult; inl notNullError])
     = [UpsertFile sampleFile Processing; create; ins;
        AlterModifyNull t (lit "a") (lit "LONGTEXT"); ins;
        UpdateFileProcessed 2 (lit "f1")].
Proof. repeat split; reflexivity. Qed.

(** A source without headers: one batch, and no insert is sent for it. *)
Lemma C9_no_header_no_insert :
  let parsed : @ParsedData integerRuntime :=
    {| headers := []; rows := [∅] |} in
  let sentStmts :=
    @sentBy _ acceptingStore _
      (importDataToTable sampleFile (lit "sales") parsed Append None)
      0%nat in
  batches (rows parsed) = [[∅]]
  /\ sentStmts
     = [CreateTableIfNotExists (lit "sales") [];
        UpdateFileProcessed 1 (lit "f1")]
  /\ List.filter isInsert sentStmts = [].
Proof. repeat split; reflexivity. Qed.

Lemma acceptingStore_quiet {R : JsNumber} : @quiet R acceptingStore.
Proof. intros c s. exists (S c), HeaderResult. split; reflexivity. Qed.

Lemma C9_witness :
  List.filter isInsert
    (@sentBy _ acceptingStore _
       (importDataToTable sampleFile (lit "sales") sampleParsed Replace
          (Some [])) 0%nat)
  = map (insertStatement (lit "sales") sampleParsed
           (inferTableSchema (headers sampleParsed) (rows sampleParsed)))
        (batches (rows sampleParsed)).
Proof.
  refine (proj1 (@C9_one_insert_per_batch _ acceptingStore sampleFile
                   (lit ".csv") (lit "sales") [] sampleParsed Replace
                   Inferred 0%nat acceptingStore_quiet _ _)).
  - discriminate.
  - reflexivity.
Defined.

Lemma C8_witness :
  let existing := RowsResult [{| Field := lit "sales"; Type_ := [] |}] in
  sentBy
    (importDataToTable sampleFile (lit "sales") sampleParsed Fail (Some []))
    (script [inr existing])
  = [ShowTablesLike (lit "sales"); UpdateFileStatus Failed (lit "f1")]
  /\ sentBy
       (uploadOldFile sampleFile (lit ".csv") (Some sampleParsed)
          (lit "sales") Fail [] Inferred)
       (script [inr HeaderResult; inr existing])
     = [UpsertFile sampleFile Processing; ShowTablesLike (lit "sales");
        UpdateFileStatus Failed (lit "f1")].
Proof.
  intros existing.
  destruct (@C8_fail_policy_existing_table _ scriptedStore sampleFile
              (lit "sales") [] (lit ".csv") sampleParsed Inferred
              (script [inr HeaderResult; inr existing])
              (script [inr existing]) (script []) HeaderResult existing
              eq_refl eq_refl) as [[Himport _] Hroute].
  split; [exact Himport|].
  apply Hroute; [discriminate | reflexivity | reflexivity].
Defined.

(** In the route a second rejection of the same batch ends the file: the
    status is set to [failed] and nothing more is inserted. *)
Example uploadOld_second_failure_is_fatal :
  let t := lit "sales" in
  let schema := inferTableSchema (headers sampleParsed) (rows sampleParsed) in
  let ins := insertStatement t sampleParsed schema (rows sampleParsed) in
  sentBy
    (uploadOldFile sampleFile (lit ".csv") (Some sampleParsed) (lit "sales")
       Append [] Inferred)
    (script [inr HeaderResult; inr HeaderResult; inl notNullError;
             inr HeaderResult; inl notNullError])
  = [UpsertFile sampleFile Processing;
     CreateTableIfNotExists t
       [{| defName := lit "a"; defType := lit "LONGTEXT";
           defAllowNull := false |}];
     ins; AlterModifyNull t (lit "a") (lit "LONGTEXT"); ins;
     UpdateFileStatus Failed (lit "f1")].
Proof. reflexivity. Qed.

(** * Further properties *)

(** ** The sanitizer on every input *)

Lemma dropWhileEnd_length (p : N -> bool) (s : jsstring) :
  (length (dropWhileEnd p s) <= length s)%nat.
Proof.
  induction s as [|d l IH] using rev_ind; [done|].
  rewrite dropWhileEnd_snoc, length_app. destruct (p d); [lia|].
  rewrite length_app. lia.
Qed.

Lemma collapse_length (s : jsstring) :
  (length (collapseUnderscores s) <= length s)%nat.
Proof.
  induction s as [|a s IH]; [done|]. destruct s as [|b r]; [done|].
  change (collapseUnderscores (a :: b :: r))
    with (if isUnderscore a && isUnderscore b
          then collapseUnderscores (b :: r)
          else a :: collapseUnderscores (b :: r)).
  destruct (isUnderscore a && isUnderscore b); simpl in *; lia.
Qed.

Lemma dropWhileEnd_fixed_last (p : N -> bool) (y : jsstring) (c : N) :
  dropWhileEnd p y = y -> last y = Some c -> p c = false.
Proof.
  destruct y as [|d l _] using rev_ind; [done|].
  rewrite last_snoc. intros Hfix [= ->]. rewrite dropWhileEnd_snoc in Hfix.
  destruct (p c); [|done]. exfalso.
  pose proof (dropWhileEnd_length p l) as Hlen.
  rewrite Hfix, length_app in Hlen. simpl in Hlen. lia.
Qed.

Lemma collapse_fixed_no_double (y : jsstring) (i : nat) :
  collapseUnderscores y = y ->
  y !! i = Some us -> y !! S i = Some us -> False.
Proof.
  revert i. induction y as [|a y IH]; intros i; [done|].
  destruct y as [|b r]; [by destruct i|].
  change (collapseUnderscores (a :: b :: r))
    with (if isUnderscore a && isUnderscore b
          then collapseUnderscores (b :: r)
          else a :: collapseUnderscores (b :: r)).
  destruct (isUnderscore a && isUnderscore b) eqn:Hab.
  - intros Hfix. exfalso. pose proof (collapse_length (b :: r)) as Hlen.
    rewrite Hfix in Hlen. simpl in Hlen. lia.
  - intros [= Hfix]. destruct i as [|i].
    + simpl. intros [= ->] [= ->]. discriminate.
    + simpl. apply IH. exact Hfix.
Qed.

(** Whatever the input, the result is not empty, holds only small
    letters, digits and underscores, starts with a small letter or a
    digit, does not end with an underscore and has no two underscores in
    a row. *)
Theorem sanitize_result_shape (x : jsstring) :
  let y := sanitizeSqlIdentifier x in
  y <> []
  /\ forallb isWord y = true
  /\ (exists c r, y = c :: r /\ (isLower c = true \/ isDigit c = true))
  /\ last y <> Some us
  /\ (forall i, y !! i = Some us -> y !! S i <> Some us).
Proof.
  intros y. destruct (sanitize_normalForm x) as [(Hw & Hl & Hr & Hc) Hne].
  pose proof (sanitize_shape x) as (_ & _ & Hm).
  fold y in Hw, Hl, Hr, Hc, Hne, Hm.
  split; [exact Hne|]. split; [exact Hw|]. split; [|split].
  - destruct y as [|c r]; [done|]. exists c, r. split; [done|].
    simpl in Hm. destruct (isDigit c); [by right|]. left.
    by apply andb_prop in Hm as [-> _].
  - intros Hlast. by pose proof (dropWhileEnd_fixed_last _ _ _ Hr Hlast).
  - intros i H1 H2. exact (collapse_fixed_no_double y i Hc H1 H2).
Qed.

Lemma dropWhileEnd_app_fixed (p : N -> bool) (a b : jsstring) :
  b <> [] -> dropWhileEnd p b = b -> dropWhileEnd p (a ++ b) = a ++ b.
Proof.
  destruct b as [|c l _] using rev_ind; [done|]. intros _ Hfix.
  assert (Hc : p c = false)
    by (apply (dropWhileEnd_fixed_last p (l ++ [c]));
        [done | apply last_snoc]).
  by rewrite app_assoc, dropWhileEnd_snoc, Hc.
Qed.

(** The second pass on a result that starts with a digit only adds the
    prefix. *)
Lemma sanitize_digit_result (y : jsstring) :
  normalForm y -> startsWithDigit y = true ->
  sanitizeSqlIdentifier y = lit "col_" ++ y
  /\ normalForm (lit "col_" ++ y).
Proof.
  intros (Hw & Hl & Hr & Hc) Hd.
  destruct y as [|d r]; [done|]. simpl in Hd.
  assert (Hnu : isUnderscore d = false).
  { unfold isUnderscore, isDigit, us in *. apply N.eqb_neq.
    bool_to_prop. lia. }
  assert (Hcol : collapseUnderscores (lit "col_" ++ d :: r)
                 = lit "col_" ++ d :: r).
  { change (lit "col_" ++ d :: r) with (99 :: 111 :: 108 :: 95 :: d :: r).
    rewrite !collapse_cons_keep by reflexivity.
    change (collapseUnderscores (95 :: d :: r))
      with (if isUnderscore 95 && isUnderscore d
            then collapseUnderscores (d :: r)
            else 95 :: collapseUnderscores (d :: r)).
    rewrite Hnu, andb_false_r, Hc. reflexivity. }
  assert (Hend : dropWhileEnd isUnderscore (lit "col_" ++ d :: r)
                 = lit "col_" ++ d :: r)
    by (by apply dropWhileEnd_app_fixed).
  assert (Hwords : forallb isWord (lit "col_" ++ d :: r) = true)
    by (rewrite forallb_app, Hw; reflexivity).
  split.
  - unfold sanitizeSqlIdentifier.
    rewrite (words_trim _ Hw), (words_toLowerCase _ Hw),
      (words_replaceNonWordRuns false _ Hw).
    cbn [isEmpty startsWithDigit orb]. rewrite Hd.
    unfold stripUnderscores.
    change (dropWhile isUnderscore (lit "col_" ++ d :: r))
      with (lit "col_" ++ d :: r).
    rewrite Hend, Hcol. reflexivity.
  - unfold normalForm. split; [exact Hwords|]. split; [reflexivity|].
    split; [exact Hend | exact Hcol].
Qed.

(** Two passes always give a name of the shape [^[a-z][a-z0-9_]*$], and
    a third pass changes nothing. *)
Theorem sanitize_twice_valid_and_stable (x : jsstring) :
  let z := sanitizeSqlIdentifier (sanitizeSqlIdentifier x) in
  matchesIdentifier z = true /\ sanitizeSqlIdentifier z = z.
Proof.
  intros z. destruct (sanitize_normalForm x) as [Hnf Hne].
  destruct (startsWithDigit (sanitizeSqlIdentifier x)) eqn:Hd.
  - destruct (sanitize_digit_result _ Hnf Hd) as [Hz Hnfz].
    unfold z. rewrite Hz. split.
    + destruct Hnf as (Hw & _). simpl. exact Hw.
    + apply sanitize_fixed; [exact Hnfz | discriminate | reflexivity].
  - assert (Hz : z = sanitizeSqlIdentifier x)
      by (by apply sanitize_fixed).
    rewrite Hz. split; [|by apply sanitize_fixed].
    pose proof (sanitize_shape x) as (_ & _ & Hm). by rewrite Hm, Hd.
Qed.

(** ** Schema inference on every source *)

Section SchemaFacts.
Context {R : JsNumber}.

Lemma chooseType_range (nonNull : list (cell R)) :
  In (chooseType nonNull) [LONGTEXT; BOOLEAN; BIGINT; DOUBLE; DATETIME].
Proof.
  pose proof (chooseType_never_DATE nonNull) as Hdate. revert Hdate.
  unfold chooseType.
  repeat match goal with
         | |- context [if ?b then _ else _] => destruct b
         end; simpl; intros Hdate;
    repeat (first [left; reflexivity | right]).
  by destruct Hdate.
Qed.

(** Every inferred column has one of the types [LONGTEXT], [BOOLEAN],
    [BIGINT], [DOUBLE], [DATETIME] and no length, so its type is rendered
    by its bare name: never [INT], [DECIMAL], [DATE], [TEXT] or a
    [VARCHAR(n)]. *)
Theorem inferTableSchema_types (headers : list (option jsstring))
    (rows : list (gmap jsstring (cell R))) (col : ColumnSchema) :
  In col (columns (inferTableSchema headers rows)) ->
  In (type col) [LONGTEXT; BOOLEAN; BIGINT; DOUBLE; DATETIME]
  /\ varcharLength col = None
  /\ typeStrOf col = typeName (type col).
Proof.
  intros (c & _ & ->)%inferTableSchema_columns.
  split; [apply chooseType_range|]. split; [reflexivity|].
  unfold typeStrOf. cbn [type varcharLength detectColumn].
  by destruct (chooseType _).
Qed.

(** Rows after the first 1000 have no influence on the schema. *)
Theorem inferTableSchema_sample_only (headers : list (option jsstring))
    (rows more : list (gmap jsstring (cell R))) :
  (1000 <= length rows)%nat ->
  inferTableSchema headers (rows ++ more) = inferTableSchema headers rows.
Proof.
  intros Hlen. unfold inferTableSchema, sampleRows.
  by rewrite take_app_le.
Qed.

Lemma nameColumns_originalHeader (headers : list (option jsstring))
    (used : gset jsstring) :
  map originalHeader (nameColumns used headers)
  = map (default (lit "column")) headers.
Proof.
  revert used. induction headers as [|h hs IH]; intros used; [done|].
  simpl. by rewrite IH.
Qed.

(** The columns come in the order of the headers, and each one reads the
    rows under the header it was made from ([column] for a header that is
    [null] or [undefined]), whatever its name was turned into. *)
Theorem inferTableSchema_original_headers (headers : list (option jsstring))
    (rows : list (gmap jsstring (cell R))) :
  map originalHeader (columns (inferTableSchema headers rows))
  = map (default (lit "column")) headers.
Proof.
  unfold inferTableSchema. cbn [columns]. rewrite map_map.
  cbn [detectColumn originalHeader]. apply nameColumns_originalHeader.
Qed.

Lemma filter_nil_iff {A} (p : A -> bool) (l : list A) :
  List.filter p l = [] <-> forall x, In x l -> p x = false.
Proof.
  induction l as [|a l IH]; simpl; [by split|].
  destruct (p a) eqn:Ha.
  - split; [discriminate|]. intros H. specialize (H a (or_introl eq_refl)).
    congruence.
  - rewrite IH. split.
    + intros H x [<- | Hx]; auto.
    + intros H x Hx. apply H. by right.
Qed.

(** A column under whose header no sampled row holds a value (each one
    lacks it or holds [null] or the empty string) is typed [LONGTEXT];
    when every sampled row lacks the header, and in particular when there
    are no rows, the column is declared not nullable. *)
Theorem inferTableSchema_no_values (headers : list (option jsstring))
    (rows : list (gmap jsstring (cell R))) (col : ColumnSchema) :
  In col (columns (inferTableSchema headers rows)) ->
  ((forall r, In r (sampleRows rows) ->
      isDefined (rowGet r (originalHeader col))
      && isNonNull (rowGet r (originalHeader col)) = false) ->
   type col = LONGTEXT)
  /\ ((forall r, In r (sampleRows rows) ->
         rowGet r (originalHeader col) = CUndefined) ->
      type col = LONGTEXT /\ nullable col = false).
Proof.
  intros (c & _ & ->)%inferTableSchema_columns.
  cbn [type nullable originalHeader detectColumn].
  assert (Hnone : (forall r, In r (sampleRows rows) ->
      isDefined (rowGet r (originalHeader c))
      && isNonNull (rowGet r (originalHeader c)) = false) ->
    nonNullValues (columnValues (sampleRows rows) (originalHeader c)) = []).
  { intros Hall. unfold nonNullValues, columnValues.
    apply filter_nil_iff. intros v [Hv Hd]%filter_In.
    apply in_map_iff in Hv as (r & <- & Hr).
    specialize (Hall r Hr). rewrite Hd in Hall. exact Hall. }
  split.
  - intros Hall. by rewrite (Hnone Hall).
  - intros Hall.
    assert (Hvals : columnValues (sampleRows rows) (originalHeader c) = []).
    { unfold columnValues. apply filter_nil_iff.
      intros v (r & <- & Hr)%in_map_iff. by rewrite (Hall r Hr). }
    rewrite Hvals. split; reflexivity.
Qed.

(** ** Row encoding on every row *)

(** Every encoded row has one parameter per header of the source, so all
    placeholder groups of an insert have the same size and the flattened
    parameter list of a batch has rows times headers entries. *)
Theorem mapRowToSqlColumns_length (hs : list (option jsstring))
    (rs batch : list (gmap jsstring (cell R)))
    (row : gmap jsstring (cell R)) :
  let schema := inferTableSchema hs rs in
  let parsed := {| headers := hs; rows := rs |} in
  length (mapRowToSqlColumns row hs schema) = length hs
  /\ Forall (fun v => length v = length hs) (batchValues parsed schema batch)
  /\ length (concat (batchValues parsed schema batch))
     = (length batch * length hs)%nat.
Proof.
  intros schema parsed.
  assert (Hrow : forall r, length (mapRowToSqlColumns r hs schema)
                           = length hs).
  { intros r. unfold mapRowToSqlColumns. rewrite length_map.
    pose proof (nameColumns_spec hs ∅) as [Hlen _].
    unfold schema, inferTableSchema. cbn [columns].
    by rewrite !length_map in *. }
  split; [apply Hrow|]. split.
  - unfold batchValues. apply Forall_forall.
    intros v (r & <- & _)%list_elem_of_In%in_map_iff. apply Hrow.
  - unfold batchValues. induction batch as [|r batch IH]; [done|].
    cbn [map concat]. rewrite length_app, IH. cbn [headers].
    rewrite Hrow. reflexivity.
Qed.

(** A cell is encoded as [null] exactly when it is missing, [null] or the
    empty string, or when its column is numeric and the text does not
    convert to a number.  In a boolean, date or text column a cell that
    is present is never encoded as [null]. *)
Theorem encodeColumn_null_iff (row : gmap jsstring (cell R))
    (col : ColumnSchema) :
  let raw := rowGet row (originalHeader col) in
  encodeColumn row col = PNull <->
  isNullish raw || isEmptyString raw = true
  \/ (In (type col) [INT; BIGINT]
      /\ Number_isNaN (parseInt10 (toStr raw)) = true)
  \/ (In (type col) [DOUBLE; DECIMAL]
      /\ Number_isNaN (toNumber (toStr raw)) = true).
Proof.
  intros raw. unfold encodeColumn. fold raw.
  destruct (isNullish raw || isEmptyString raw) eqn:Hn; [by split; auto|].
  destruct (type col) eqn:Hty; cbn [In];
    repeat match goal with
           | |- context [if ?b then _ else _] => destruct b eqn:?
           end;
    split; try discriminate; try (intros _; auto 10; fail);
    intros [H | [[H H'] | [H H']]]; try discriminate;
    repeat match goal with
           | H : _ \/ _ |- _ => destruct H
           | H : False |- _ => destruct H
           end; try discriminate; try congruence.
Qed.

(** [measureMaxLength] bounds the length of the string conversion of
    every value that is neither [null] nor [undefined], and the bound is
    0 or the length of one of them. *)
Theorem measureMaxLength_spec (values : list (cell R)) :
  let m := measureMaxLength values in
  (forall v, In v values -> isNullish v = false ->
     (length (toStr v) <= m)%nat)
  /\ (m = 0%nat
      \/ exists v, In v values /\ isNullish v = false
           /\ length (toStr v) = m).
Proof.
  unfold measureMaxLength.
  set (step := fun (max : nat) (v : cell R) =>
                 if isNullish v then max
                 else if (max <? length (toStr v))%nat
                      then length (toStr v) else max).
  assert (Hgen : forall vs m0,
    (m0 <= fold_left step vs m0)%nat
    /\ (forall v, In v vs -> isNullish v = false ->
          (length (toStr v) <= fold_left step vs m0)%nat)
    /\ (fold_left step vs m0 = m0
        \/ exists v, In v vs /\ isNullish v = false
             /\ length (toStr v) = fold_left step vs m0)).
  { induction vs as [|v vs IH]; intros m0; simpl.
    - split; [lia|]. split; [intros v []|by left].
    - destruct (IH (step m0 v)) as (Hle & Hall & Hatt).
      assert (Hstep : (m0 <= step m0 v)%nat
                      /\ (isNullish v = false ->
                          (length (toStr v) <= step m0 v)%nat)
                      /\ (step m0 v = m0
                          \/ isNullish v = false
                             /\ step m0 v = length (toStr v))).
      { unfold step. destruct (isNullish v).
        - split; [lia|]. split; [discriminate | by left].
        - destruct (Nat.ltb_spec m0 (length (toStr v))).
          + split; [lia|]. split; [intros _; lia | by right].
          + split; [lia|]. split; [intros _; lia | by left]. }
      destruct Hstep as (H1 & H2 & H3).
      split; [lia|]. split.
      + intros v' [<- | Hv'] Hn; [specialize (H2 Hn); lia | auto].
      + destruct Hatt as [Heq | (v' & Hv' & Hn & Hlen)].
        * destruct H3 as [H3 | [Hn H3]]; [left; congruence|].
          right. exists v. split; [by left|]. split; [done|]. congruence.
        * right. exists v'. split; [by right | done]. }
  destruct (Hgen values 0%nat) as (_ & Hall & Hatt). split; [exact Hall|].
  exact Hatt.
Qed.

End SchemaFacts.

(** ** The error message of a not-null violation *)

Lemma eqbCI_refl (c : N) : eqbCI c c = true.
Proof. unfold eqbCI. apply N.eqb_refl. Qed.

Lemma stripPrefixCI_app (pat r : jsstring) :
  stripPrefixCI pat (pat ++ r) = Some r.
Proof.
  induction pat as [|p pat IH]; [done|]. simpl. by rewrite eqbCI_refl.
Qed.

Lemma takeWhile_app_stop (p : N -> bool) (a : jsstring) (c : N)
    (r : jsstring) :
  forallb p a = true -> p c = false ->
  takeWhile p (a ++ c :: r) = a /\ dropWhile p (a ++ c :: r) = c :: r.
Proof.
  intros Ha Hc. induction a as [|x a IH]; simpl.
  - by rewrite Hc.
  - simpl in Ha. apply andb_prop in Ha as [Hx Ha]. rewrite Hx.
    destruct (IH Ha) as [-> ->]. done.
Qed.

Lemma takeWhile_forall (p : N -> bool) (s : jsstring) :
  forallb p (takeWhile p s) = true.
Proof.
  induction s as [|c r IH]; simpl; [done|].
  destruct (p c) eqn:Hc; simpl; [by rewrite Hc, IH | done].
Qed.

Lemma notNullColumnAt_sound (s col : jsstring) :
  notNullColumnAt s = Some col ->
  col <> [] /\ forallb (fun c => negb (isQuote c)) col = true.
Proof.
  unfold notNullColumnAt.
  generalize (lit "Column '") (lit "' cannot be null"). intros p1 p2.
  destruct (stripPrefixCI p1 s) as [r|]; [|done]. simpl.
  pose proof (takeWhile_forall (fun c => negb (isQuote c)) r) as Hall.
  destruct (takeWhile (fun c => negb (isQuote c)) r) as [|c t]; [done|].
  simpl. destruct (stripPrefixCI p2 _); [|done].
  simpl. intros [= <-]. done.
Qed.

(** The message MySQL gives for a not-null violation, [Column 'x' cannot
    be null], yields the column name [x], whatever follows it; and
    whatever the message, a name that is found is not empty and holds no
    quote. *)
Theorem notNullColumn_roundtrip (col post : jsstring) :
  col <> [] ->
  forallb (fun c => negb (isQuote c)) col = true ->
  notNullColumn (lit "Column '" ++ col ++ lit "' cannot be null" ++ post)
  = Some col
  /\ forall msg found, notNullColumn msg = Some found ->
       found <> [] /\ forallb (fun c => negb (isQuote c)) found = true.
Proof.
  intros Hne Hq. split.
  - assert (Hat : notNullColumnAt
                    (lit "Column '" ++ col ++ lit "' cannot be null" ++ post)
                  = Some col).
    { unfold notNullColumnAt. rewrite stripPrefixCI_app.
      cbn [mbind option_bind].
      change (lit "' cannot be null" ++ post)
        with (39 :: (lit " cannot be null" ++ post)).
      destruct (takeWhile_app_stop (fun c => negb (isQuote c)) col 39
                  (lit " cannot be null" ++ post) Hq eq_refl) as [-> ->].
      destruct col as [|c r]; [done|]. cbn [isEmpty].
      change (39 :: (lit " cannot be null" ++ post))
        with (lit "' cannot be null" ++ post).
      by rewrite stripPrefixCI_app. }
    destruct (lit "Column '" ++ col ++ lit "' cannot be null" ++ post)
      as [|c r] eqn:Hmsg; cbn [notNullColumn]; by rewrite Hat.
  - intros msg. induction msg as [|c r IH]; intros found;
      cbn [notNullColumn].
    + destruct (notNullColumnAt []) eqn:Hat; [|done].
      intros [= <-]. by apply (notNullColumnAt_sound []).
    + destruct (notNullColumnAt (c :: r)) eqn:Hat.
      * intros [= <-]. by apply (notNullColumnAt_sound (c :: r)).
      * apply IH.
Qed.

(** ** The pipelines on every store *)

Section PipelineMore.
Context {R : JsNumber} {D : Store}.

Lemma exec_any (stmt : Stmt) (w : World) :
  exists c r, exec stmt w = ({| db := c; sent := sent w ++ [stmt] |}, r).
Proof.
  unfold exec. destruct (query (db w) stmt) as [c r]. by exists c, r.
Qed.

Ltac step_any :=
  repeat first
    [ rewrite bind_eq
    | rewrite ret_eq
    | match goal with
      | |- context [exec ?s ?w] =>
          let c := fresh "c" in let e := fresh "e" in let q := fresh "q" in
          destruct (exec_any s w) as (c & [e|q] & ->)
      end
    | progress cbn beta iota
    | progress unfold throw ].

Ltac batch_stmts :=
  repeat (apply List.Forall_cons;
          [first [ left; reflexivity
                 | right; left; reflexivity
                 | right; right; eexists _, _; reflexivity ]|]);
  apply List.Forall_nil.

(** A batch of the route costs the store at most two inserts and one
    alter statement, whatever it answers: the retry cannot loop.  Every
    insert sent is the insert of this batch, and the only other
    statements are a describe and the alter. *)
Theorem uploadOldBatch_bounded (t : jsstring) (parsed : ParsedData)
    (schema : TableSchema) (batch : list (gmap jsstring (cell R)))
    (w : World) :
  let ins := insertStatement t parsed schema batch in
  exists extra,
    sent (fst (uploadOldBatch t parsed schema batch w)) = sent w ++ extra
    /\ (length (List.filter isInsert extra) <= 2)%nat
    /\ (length (List.filter isAlter extra) <= 1)%nat
    /\ Forall (fun s => s = ins \/ s = Describe t
                        \/ exists col ty, s = AlterModifyNull t col ty)
         extra.
Proof.
  intros ins. unfold uploadOldBatch. cbv zeta. fold ins.
  destruct (0 <? length (concat (batchValues parsed schema batch)))%nat.
  - unfold tryCatch. step_any.
    + destruct (notNullColumn (errorText e)) as [col|].
      * destruct (isEmpty _); step_any; cbn [fst sent];
          rewrite <- ?app_assoc; eexists; (split; [reflexivity|]);
          cbn [List.filter isInsert isAlter length app]; unfold ins;
          cbn [insertStatement List.filter isInsert isAlter length];
          (split; [lia|]); (split; [lia|]);
          fold ins; batch_stmts.
      * step_any. exists [ins]. cbn [fst sent]. split; [reflexivity|].
        unfold ins at 2 3. cbn. split; [lia|]. split; [lia|]. batch_stmts.
    + exists [ins]. cbn [fst sent]. split; [reflexivity|].
      unfold ins at 2 3. cbn. split; [lia|]. split; [lia|]. batch_stmts.
  - exists []. rewrite ret_eq, app_nil_r. cbn. split; [done|].
    split; [lia|]. split; [lia|]. constructor.
Qed.

Lemma sendsAll_ret (P : Stmt -> Prop) {A} (a : A) : sendsAll P (ret a).
Proof. intros w. exists []. rewrite ret_eq, app_nil_r. done. Qed.

Lemma sendsAll_exec (P : Stmt -> Prop) (stmt : Stmt) :
  P stmt -> sendsAll P (exec stmt).
Proof.
  intros HP w. exists [stmt]. destruct (exec_any stmt w) as (c & r & ->).
  split; [reflexivity | by constructor].
Qed.

Lemma sendsAll_bind (P : Stmt -> Prop) {A B} (m : M A) (k : A -> M B) :
  sendsAll P m -> (forall a, sendsAll P (k a)) -> sendsAll P (m ≫= k).
Proof.
  intros Hm Hk w. rewrite bind_eq. destruct (Hm w) as (x1 & H1 & F1).
  destruct (m w) as [w1 [e|a]]; cbn [fst] in *.
  - exists x1. done.
  - destruct (Hk a w1) as (x2 & H2 & F2). exists (x1 ++ x2).
    rewrite H2, H1, app_assoc. split; [done|]. by apply Forall_app.
Qed.

Lemma sendsAll_forBatches (P : Stmt -> Prop)
    (body : list (gmap jsstring (cell R)) -> M unit)
    (rs : list (gmap jsstring (cell R))) (fuel i : nat) :
  (forall batch, sendsAll P (body batch)) ->
  sendsAll P (forBatches body fuel i rs).
Proof.
  intros Hbody. revert i. induction fuel as [|fuel IH]; intros i;
    cbn [forBatches].
  - apply sendsAll_ret.
  - destruct (i <? length rs)%nat; [|apply sendsAll_ret].
    apply sendsAll_bind; [apply Hbody | intros _; apply IH].
Qed.

Lemma sendsAll_sentBy (P : Stmt -> Prop) {A} (m : M A) (c : conn) :
  sendsAll P m -> Forall P (sentBy m c).
Proof.
  intros Hm. unfold sentBy, run.
  destruct (Hm {| db := c; sent := [] |}) as (extra & -> & HP). exact HP.
Qed.

Ltac sends_all :=
  repeat first
    [ apply sendsAll_bind
    | apply sendsAll_ret
    | apply sendsAll_forBatches
    | match goal with
      | |- forall _, _ => intro
      | |- sendsAll _ (match ?x with _ => _ end) => destruct x
      end
    | progress unfold importBatch; cbv zeta ].

(** Whatever the store answers, [importDataToTable] sends only the table
    creation, inserts and the update to processed, plus, under [replace],
    the drop and, under [fail], the existence check and the update to
    failed.  It never sends an alter or a describe statement, never
    registers a file and never sets the status empty or unsupported;
    under [append] nothing is dropped and nothing is checked. *)
Theorem importDataToTable_statement_kinds (file : FileRecord)
    (suggested : jsstring) (parsed : ParsedData) (ifExists : IfExists)
    (explicit : option jsstring) (c : conn) :
  Forall (importMaySend ifExists)
    (sentBy (importDataToTable file suggested parsed ifExists explicit) c).
Proof.
  apply sendsAll_sentBy. unfold importDataToTable.
  cbn [generateCreateTableSql].
  destruct ifExists; sends_all; apply sendsAll_exec; exact I || reflexivity.
Qed.

(** Every table creation that [importDataToTable] sends is for the
    sanitized table name and declares one column per header, under
    pairwise distinct names, each of them nullable, whatever the data and
    the policy. *)
Theorem importDataToTable_creates_nullable (file : FileRecord)
    (suggested : jsstring) (parsed : ParsedData) (ifExists : IfExists)
    (explicit : option jsstring) (c : conn) (t' : jsstring)
    (cols : list ColumnDef) :
  In (CreateTableIfNotExists t' cols)
    (sentBy (importDataToTable file suggested parsed ifExists explicit) c) ->
  t' = sanitizeSqlIdentifier (orElse explicit suggested)
  /\ length cols = length (headers parsed)
  /\ NoDup (map defName cols)
  /\ Forall (fun d => defAllowNull d = true) cols.
Proof.
  set (t := sanitizeSqlIdentifier (orElse explicit suggested)).
  set (schema := inferTableSchema (headers parsed) (rows parsed)).
  set (create := CreateTableIfNotExists t
                   (snd (generateCreateTableSql t schema ifExists
                           AllNullable))).
  assert (Hall : Forall (fun s => forall t' cols,
                           s = CreateTableIfNotExists t' cols -> s = create)
                   (sentBy (importDataToTable file suggested parsed ifExists
                              explicit) c)).
  { apply sendsAll_sentBy. unfold importDataToTable.
    cbn [generateCreateTableSql]. fold t schema.
    destruct ifExists; sends_all; apply sendsAll_exec;
      intros ? ? [=]; subst; reflexivity. }
  intros Hin. rewrite Forall_forall in Hall.
  apply list_elem_of_In in Hin.
  specialize (Hall _ Hin t' cols eq_refl). unfold create in Hall.
  cbn [generateCreateTableSql snd] in Hall. injection Hall as Ht Hc.
  pose proof (nameColumns_spec (headers parsed) ∅) as (_ & Hnd & _).
  rewrite <- (inferTableSchema_names (headers parsed) (rows parsed)) in Hnd.
  fold schema in Hnd. split; [exact Ht|]. rewrite Hc. split; [|split].
  - rewrite length_map. apply inferTableSchema_length.
  - rewrite map_map. cbn [defName]. exact Hnd.
  - apply Forall_forall. intros d (c0 & <- & _)%list_elem_of_In%in_map_iff.
    reflexivity.
Qed.

Lemma tryCatch_handled {A} (m : M A) (handler : SqlError -> M A) :
  (forall e w, exists w' a, handler e w = (w', inr a)) ->
  forall w, exists w' a, tryCatch m handler w = (w', inr a).
Proof.
  intros Hh w. unfold tryCatch. destruct (m w) as [w1 [e|a]]; eauto.
Qed.

(** For a given result of the parser: a store that accepts the
    registration of the file and every update of its status does not make
    the rest of the round throw, whatever else it rejects. *)
Lemma uploadOldFile_contains_errors (file : FileRecord)
    (ext suggested explicit : jsstring) (parsed : option ParsedData)
    (ifExists : IfExists) (nullability : Nullability) (c : conn) :
  (forall c', exists c'' q,
      query c' (UpsertFile file Processing) = (c'', inr q)) ->
  (forall c' st, exists c'' q,
      query c' (UpdateFileStatus st (id file)) = (c'', inr q)) ->
  exists result,
    outcome (uploadOldFile file ext parsed suggested ifExists explicit
               nullability) c = inr result.
Proof.
  intros Hreg Hst.
  assert (Hstatus : forall st w, exists w',
    (exec (UpdateFileStatus st (id file));; ret (@None ProcessedResult)) w
    = (w', inr None)).
  { intros st w. rewrite bind_eq. destruct (Hst (db w) st) as (c' & q & Hc).
    erewrite exec_eq by exact Hc. eexists. reflexivity. }
  unfold outcome, run, uploadOldFile. rewrite bind_eq.
  destruct (Hreg c) as (c0 & q0 & Hc0).
  erewrite exec_eq by exact Hc0. cbn beta iota.
  assert (Hend : forall st w, exists r,
    snd ((exec (UpdateFileStatus st (id file));;
          ret (@None ProcessedResult)) w) = inr r).
  { intros st w. destruct (Hstatus st w) as (w' & ->). eauto. }
  destruct (negb (supportedExt ext)); [apply Hend|].
  destruct parsed as [p|]; [|apply Hend].
  destruct (length (rows p) =? 0)%nat; [apply Hend|].
  cbn [generateCreateTableSql].
  match goal with
  | |- context [tryCatch ?m ?h ?w0] =>
      assert (Hh : forall e w, exists w' a, h e w = (w', inr a))
        by (intros e w; destruct (Hstatus Failed w) as (w' & ->); eauto);
      destruct (tryCatch_handled m h Hh w0) as (w' & a & ->)
  end.
  eauto.
Qed.

Ltac step_loop :=
  repeat first
    [ rewrite bind_eq
    | rewrite ret_eq
    | match goal with
      | |- context [exec ?s ?w] =>
          let c := fresh "c" in let e := fresh "e" in let q := fresh "q" in
          destruct (exec_any s w) as (c & [e|q] & ->)
      | |- context [forBatches ?b ?f ?i ?rs ?w] =>
          let wl := fresh "wl" in let e := fresh "e" in
          destruct (forBatches b f i rs w) as [wl [e|[]]]
      | |- context [if nonEmptyArray ?q then _ else _] =>
          destruct (nonEmptyArray q)
      end
    | progress cbn beta iota ].

(** For a given result of the parser: once the file is registered, the
    rest of the round sends a statement that ends the run of that file
    (unsupported, empty, failed or processed), whatever the store answers.
    A result is reported only for a source that has rows and a supported
    extension, and then the last statement sent is the update to
    processed, with the number of rows of the source, which is also the
    row count reported. *)
Lemma uploadOldFile_terminal_status (file : FileRecord)
    (ext suggested explicit : jsstring) (parsed : option ParsedData)
    (ifExists : IfExists) (nullability : Nullability) (c c0 : conn)
    (q0 : QueryResult) :
  let route :=
    uploadOldFile file ext parsed suggested ifExists explicit nullability in
  query c (UpsertFile file Processing) = (c0, inr q0) ->
  existsb isTerminalStatus (sentBy route c) = true
  /\ forall result, outcome route c = inr (Some result) ->
       exists p, parsed = Some p
         /\ rows p <> []
         /\ supportedExt ext = true
         /\ last (sentBy route c)
            = Some (UpdateFileProcessed (length (rows p)) (id file))
         /\ result
            = {| resultFileId := id file;
                 resultTable :=
                   sanitizeSqlIdentifier (orElse (Some explicit) suggested);
                 resultRowCount := length (rows p) |}.
Proof.
  intros route Hreg. unfold route, sentBy, outcome, run, uploadOldFile.
  rewrite bind_eq. erewrite exec_eq by exact Hreg. cbn beta iota.
  destruct (supportedExt ext); cbn [negb].
  2: { step_loop; cbn [fst snd sent]; (split; [reflexivity|]);
       intros r [=]. }
  destruct parsed as [p|].
  2: { step_loop; cbn [fst snd sent]; (split; [reflexivity|]);
       intros r [=]. }
  destruct (Nat.eqb_spec (length (rows p)) 0) as [Hz|Hnz].
  { step_loop; cbn [fst snd sent]; (split; [reflexivity|]); intros r [=]. }
  assert (Hrows : rows p <> []) by (by destruct (rows p)).
  cbn [generateCreateTableSql]. unfold tryCatch.
  destruct ifExists; step_loop; cbn [fst snd sent];
    rewrite ?existsb_app; cbn [existsb isTerminalStatus];
    rewrite ?orb_true_r;
    (split; [reflexivity|]); intros r [= <-];
    exists p; (split; [reflexivity|]); (split; [exact Hrows|]);
    (split; [reflexivity|]); (split; [apply last_snoc | reflexivity]).
Qed.

(** *** Complete runs *)

Ltac accepted_run Hq Hloop :=
  repeat first
    [ rewrite bind_eq
    | rewrite ret_eq
    | match goal with
      | |- context [exec ?s ?w] =>
          let c := fresh "c" in let q := fresh "q" in
          let Hn := fresh "Hn" in
          destruct (exec_quiet Hq s w) as (c & q & -> & Hn);
          try rewrite Hn
      | |- context [forBatches ?b ?f ?i ?rs ?w] =>
          let c := fresh "c" in destruct (Hloop w) as (c & ->)
      end
    | progress cbn beta iota ].

Lemma batchValues_concat (parsed : ParsedData) (schema : TableSchema)
    (bs : list (list (gmap jsstring (cell R)))) :
  concat (map (batchValues parsed schema) bs)
  = map (fun row => mapRowToSqlColumns row (headers parsed) schema)
      (concat bs).
Proof.
  induction bs as [|b bs IH]; [done|]. cbn [map concat].
  rewrite IH, map_app. reflexivity.
Qed.

(** On a store that accepts every statement and reports no existing
    table, [importDataToTable] on a source with at least one header sends,
    in this order, the statement of the policy (the drop under [replace],
    the existence check under [fail]), the table creation, one insert per
    batch and the update to processed with the number of rows; it ends
    without error.  The rows of the inserts, taken together, are the
    encoded rows of the source, each once and in order. *)
Theorem importDataToTable_accepted_run (file : FileRecord)
    (suggested : jsstring) (parsed : ParsedData) (ifExists : IfExists)
    (explicit : option jsstring) (c : conn) :
  quiet ->
  headers parsed <> [] ->
  let t := sanitizeSqlIdentifier (orElse explicit suggested) in
  let schema := inferTableSchema (headers parsed) (rows parsed) in
  let import := importDataToTable file suggested parsed ifExists explicit in
  sentBy import c
  = policyStatements ifExists t
    ++ [CreateTableIfNotExists t
          (snd (generateCreateTableSql t schema ifExists AllNullable))]
    ++ map (insertStatement t parsed schema) (batches (rows parsed))
    ++ [UpdateFileProcessed (length (rows parsed)) (id file)]
  /\ outcome import c = inr tt
  /\ concat (map (batchValues parsed schema) (batches (rows parsed)))
     = map (fun row => mapRowToSqlColumns row (headers parsed) schema)
         (rows parsed).
Proof.
  intros Hq Hh t schema import.
  assert (Hcols : (0 < length (columns schema))%nat).
  { unfold schema. rewrite inferTableSchema_length.
    destruct (headers parsed); [done | simpl; lia]. }
  assert (Hloop : forall w, exists c',
    forBatches (importBatch t parsed schema) (length (rows parsed)) 0
      (rows parsed) w
    = ({| db := c';
          sent := sent w ++ map (insertStatement t parsed schema)
                              (batches (rows parsed)) |}, inr tt)).
  { intros w. apply forBatches_inserts. intros batch w' Hb.
    apply importBatch_quiet; [exact Hq | nia]. }
  split; [|split].
  - unfold import, sentBy, run, importDataToTable.
    cbn [generateCreateTableSql snd]. fold t schema.
    destruct ifExists; accepted_run Hq Hloop;
      cbn [fst sent app policyStatements]; rewrite <- ?app_assoc;
      reflexivity.
  - unfold import, outcome, run, importDataToTable.
    cbn [generateCreateTableSql snd]. fold t schema.
    destruct ifExists; accepted_run Hq Hloop; reflexivity.
  - rewrite batchValues_concat.
    by destruct (batches_spec (rows parsed)) as (-> & _).
Qed.

(** The same for the route, for a file with a supported extension and at
    least one row: the registration comes first, the columns are declared
    according to the nullability asked for, and the result reported names
    the table and the number of rows. *)
Theorem uploadOldFile_accepted_run (file : FileRecord)
    (ext suggested explicit : jsstring) (parsed : ParsedData)
    (ifExists : IfExists) (nullability : Nullability) (c : conn) :
  quiet ->
  headers parsed <> [] ->
  rows parsed <> [] ->
  supportedExt ext = true ->
  let t := sanitizeSqlIdentifier (orElse (Some explicit) suggested) in
  let schema := inferTableSchema (headers parsed) (rows parsed) in
  let route :=
    uploadOldFile file ext (Some parsed) suggested ifExists explicit
      nullability in
  sentBy route c
  = [UpsertFile file Processing]
    ++ policyStatements ifExists t
    ++ [CreateTableIfNotExists t
          (snd (generateCreateTableSql t schema ifExists nullability))]
    ++ map (insertStatement t parsed schema) (batches (rows parsed))
    ++ [UpdateFileProcessed (length (rows parsed)) (id file)]
  /\ outcome route c
     = inr (Some {| resultFileId := id file; resultTable := t;
                    resultRowCount := length (rows parsed) |}).
Proof.
  intros Hq Hh Hrows Hext t schema route.
  assert (Hcols : (0 < length (columns schema))%nat).
  { unfold schema. rewrite inferTableSchema_length.
    destruct (headers parsed); [done | simpl; lia]. }
  assert (Hloop : forall w, exists c',
    forBatches (uploadOldBatch t parsed schema) (length (rows parsed)) 0
      (rows parsed) w
    = ({| db := c';
          sent := sent w ++ map (insertStatement t parsed schema)
                              (batches (rows parsed)) |}, inr tt)).
  { intros w. apply forBatches_inserts. intros batch w' Hb.
    apply uploadOldBatch_quiet; [exact Hq | nia]. }
  assert (Hnz : (length (rows parsed) =? 0)%nat = false)
    by (apply Nat.eqb_neq; by destruct (rows parsed)).
  split.
  - unfold route, sentBy, run, uploadOldFile.
    cbn [generateCreateTableSql snd]. fold t schema.
    rewrite Hext, Hnz. cbn [negb]. unfold tryCatch.
    destruct ifExists; accepted_run Hq Hloop;
      cbn [fst sent app policyStatements]; rewrite <- ?app_assoc;
      reflexivity.
  - unfold route, outcome, run, uploadOldFile.
    cbn [generateCreateTableSql snd]. fold t schema.
    rewrite Hext, Hnz. cbn [negb]. unfold tryCatch.
    destruct ifExists; accepted_run Hq Hloop; reflexivity.
Qed.

(** *** Partial runs *)

Lemma forBatches_import_prefix (t : jsstring) (parsed : ParsedData)
    (schema : TableSchema) (rs : list (gmap jsstring (cell R)))
    (fuel i : nat) (w : World) :
  (0 < length (columns schema))%nat ->
  exists k,
    (k <= length (batchesFrom fuel i rs))%nat
    /\ sent (fst (forBatches (importBatch t parsed schema) fuel i rs w))
       = sent w ++ map (insertStatement t parsed schema)
                     (take k (batchesFrom fuel i rs))
    /\ (snd (forBatches (importBatch t parsed schema) fuel i rs w) = inr tt ->
        k = length (batchesFrom fuel i rs)).
Proof.
  intros Hcols. revert i w. induction fuel as [|fuel IH]; intros i w.
  - exists 0%nat. cbn. rewrite app_nil_r. done.
  - cbn [forBatches]. rewrite batchesFrom_unfold.
    destruct (Nat.ltb_spec i (length rs)) as [Hlt|Hge].
    + set (b := slice i (i + batchSize) rs).
      assert (Hb : (0 < length b)%nat)
        by (unfold b; rewrite slice_length; unfold batchSize; lia).
      assert (Hbody : importBatch t parsed schema b w
                      = (exec (insertStatement t parsed schema b);;
                         ret tt) w).
      { unfold importBatch. cbv zeta. rewrite batchValues_flat_length.
        destruct (Nat.ltb_spec 0 (length b * length (columns schema)));
          [reflexivity | nia]. }
      rewrite !bind_eq, !Hbody, !bind_eq.
      destruct (exec_any (insertStatement t parsed schema b) w)
        as (c1 & r & Hex). rewrite !Hex. destruct r as [e|q].
      * exists 1%nat. cbn [fst snd sent length].
        split; [lia|]. split; [|discriminate].
        change (take 1 (?x :: ?l)) with (x :: take 0 l).
        by rewrite take_0.
      * rewrite !ret_eq. cbn beta iota.
        destruct (IH (i + batchSize)%nat
                    {| db := c1;
                       sent := sent w ++ [insertStatement t parsed schema b]
                    |})
          as (k & Hle & Hs & Hk).
        exists (S k). cbn [length]. split; [lia|].
        split; [|intros Hr; f_equal; by apply Hk].
        rewrite Hs. cbn [sent].
        change (take (S k) (?x :: ?l)) with (x :: take k l).
        cbn [map]. by rewrite <- app_assoc.
    + exists 0%nat. rewrite ret_eq. cbn. rewrite app_nil_r. done.
Qed.

Lemma processed_not_insert (t : jsstring) (parsed : ParsedData)
    (schema : TableSchema) (n : nat) (fid : jsstring)
    (bs : list (list (gmap jsstring (cell R)))) :
  ~ In (UpdateFileProcessed n fid) (map (insertStatement t parsed schema) bs).
Proof. intros (b & Hb & _)%in_map_iff. discriminate. Qed.

(** Whatever the store rejects, the inserts that [importDataToTable]
    sends on a source with at least one header are the inserts of the
    first [k] batches, in order and each once: a run that stops early
    leaves nothing out in the middle and sends nothing twice.  The file
    is marked processed only when the insert of every batch was sent. *)
Theorem importDataToTable_inserts_prefix (file : FileRecord)
    (suggested : jsstring) (parsed : ParsedData) (ifExists : IfExists)
    (explicit : option jsstring) (c : conn) :
  headers parsed <> [] ->
  let t := sanitizeSqlIdentifier (orElse explicit suggested) in
  let schema := inferTableSchema (headers parsed) (rows parsed) in
  let sentStmts :=
    sentBy (importDataToTable file suggested parsed ifExists explicit) c in
  exists k,
    (k <= length (batches (rows parsed)))%nat
    /\ List.filter isInsert sentStmts
       = map (insertStatement t parsed schema)
           (take k (batches (rows parsed)))
    /\ (In (UpdateFileProcessed (length (rows parsed)) (id file)) sentStmts ->
        k = length (batches (rows parsed))).
Proof.
  intros Hh t schema sentStmts.
  assert (Hcols : (0 < length (columns schema))%nat).
  { unfold schema. rewrite inferTableSchema_length.
    destruct (headers parsed); [done | simpl; lia]. }
  set (processed := UpdateFileProcessed (length (rows parsed)) (id file)).
  set (ins := insertStatement t parsed schema).
  set (bs := batches (rows parsed)).
  (* the part from the table creation on, started in any world *)
  assert (Htail : forall w cols, exists k extra,
    (k <= length bs)%nat
    /\ sent (fst ((exec (CreateTableIfNotExists t cols);;
                   forBatches (importBatch t parsed schema)
                     (length (rows parsed)) 0 (rows parsed);;
                   exec processed;; ret tt) w)) = sent w ++ extra
    /\ List.filter isInsert extra = map ins (take k bs)
    /\ (In processed extra -> k = length bs)).
  { intros w cols. rewrite bind_eq.
    destruct (exec_any (CreateTableIfNotExists t cols) w)
      as (c1 & [e|q] & ->).
    - exists 0%nat, [CreateTableIfNotExists t cols]. cbn [fst sent].
      split; [lia|]. split; [reflexivity|]. split; [by rewrite take_0|].
      intros [H|[]]; discriminate.
    - rewrite bind_eq.
      destruct (forBatches_import_prefix t parsed schema (rows parsed)
                  (length (rows parsed)) 0
                  {| db := c1;
                     sent := sent w ++ [CreateTableIfNotExists t cols] |}
                  Hcols) as (k & Hle & Hs & Hk).
      fold (batches (rows parsed)) in Hle, Hs, Hk. fold bs ins in Hle, Hs, Hk.
      destruct (forBatches _ _ _ _ _) as [wl [e|[]]]; cbn [fst snd] in *.
      + exists k, (CreateTableIfNotExists t cols :: map ins (take k bs)).
        split; [exact Hle|]. split.
        { rewrite Hs. cbn [sent]. by rewrite <- app_assoc. }
        split.
        { cbn [List.filter isInsert]. apply filter_isInsert_inserts. }
        intros [H|H]; [discriminate|].
        by apply processed_not_insert in H.
      + rewrite bind_eq.
        destruct (exec_any processed wl) as (c2 & [e|q2] & ->);
          rewrite ?ret_eq; cbn [fst sent]; rewrite Hs; cbn [sent];
          exists k, (CreateTableIfNotExists t cols :: map ins (take k bs)
                     ++ [processed]);
          (split; [exact Hle|]);
          (split; [by rewrite <- !app_assoc|]);
          (split; [cbn [List.filter isInsert]; rewrite List.filter_app;
                   cbn [List.filter isInsert processed];
                   rewrite app_nil_r; apply filter_isInsert_inserts|]);
          intros _; by apply Hk. }
  unfold sentStmts, sentBy, run, importDataToTable.
  cbn [generateCreateTableSql]. fold t schema processed.
  assert (Hfinish : forall w,
    List.filter isInsert (sent w) = [] -> ~ In processed (sent w) ->
    forall cols, exists k,
      (k <= length bs)%nat
      /\ List.filter isInsert
           (sent (fst ((exec (CreateTableIfNotExists t cols);;
                        forBatches (importBatch t parsed schema)
                          (length (rows parsed)) 0 (rows parsed);;
                        exec processed;; ret tt) w)))
         = map ins (take k bs)
      /\ (In processed
            (sent (fst ((exec (CreateTableIfNotExists t cols);;
                         forBatches (importBatch t parsed schema)
                           (length (rows parsed)) 0 (rows parsed);;
                         exec processed;; ret tt) w)))
          -> k = length bs)).
  { intros w Hf Hnp cols.
    destruct (Htail w cols) as (k & extra & Hle & -> & Hx & Hp).
    exists k. split; [exact Hle|]. rewrite List.filter_app, Hf, Hx.
    split; [reflexivity|]. intros [H|H]%in_app_or; [done | auto]. }
  assert (Hstop : forall l : list Stmt,
    List.filter isInsert l = [] -> ~ In processed l ->
    exists k, (k <= length bs)%nat
      /\ List.filter isInsert l = map ins (take k bs)
      /\ (In processed l -> k = length bs)).
  { intros l Hf Hnp. exists 0%nat. split; [lia|]. rewrite Hf, take_0.
    split; [reflexivity | done]. }
  destruct ifExists; rewrite bind_eq.
  - rewrite ret_eq. cbn beta iota. rewrite bind_eq, ret_eq. cbn beta iota.
    apply Hfinish; [reflexivity | intros []].
  - rewrite bind_eq.
    destruct (exec_any (DropTableIfExists t) {| db := c; sent := [] |})
      as (c1 & [e|q] & ->); cbn beta iota.
    + apply Hstop; [reflexivity | intros [H|[]]; discriminate].
    + rewrite ret_eq. cbn beta iota. rewrite bind_eq, ret_eq.
      cbn beta iota.
      apply Hfinish; [reflexivity | intros [H|[]]; discriminate].
  - rewrite ret_eq. cbn beta iota. rewrite !bind_eq.
    destruct (exec_any (ShowTablesLike t) {| db := c; sent := [] |})
      as (c1 & [e|q] & ->); cbn beta iota.
    + apply Hstop; [reflexivity | intros [H|[]]; discriminate].
    + destruct (nonEmptyArray q).
      * rewrite bind_eq.
        match goal with
        | |- context [exec ?s ?w] =>
            destruct (exec_any s w) as (c2 & [e|q2] & ->)
        end; rewrite ?ret_eq; cbn beta iota; rewrite ?ret_eq;
          cbn [fst sent app];
          (apply Hstop; [reflexivity
                        | intros [H|[H|[]]]; discriminate]).
      * rewrite ret_eq. cbn beta iota.
        apply Hfinish; [reflexivity | intros [H|[]]; discriminate].
Qed.

(** *** A round with its download and its parser *)

(** With a store that accepts the registration of the file and every
    update of its status, a round throws only when the download or the
    parser throws, and then with that error: every error of the store in
    the table statements is caught within the round.  An error of the
    download comes before anything is sent; an error of the parser is not
    caught and ends the loop over the files. *)
Theorem uploadOldRound_throws_only_outside_store (file : FileRecord)
    (download : SqlError + unit) (ext suggested explicit : jsstring)
    (parser : SqlError + option ParsedData) (ifExists : IfExists)
    (nullability : Nullability) (c : conn) :
  let round :=
    uploadOldRound file download ext parser suggested ifExists explicit
      nullability in
  (forall c', exists c'' q,
      query c' (UpsertFile file Processing) = (c'', inr q)) ->
  (forall c' st, exists c'' q,
      query c' (UpdateFileStatus st (id file)) = (c'', inr q)) ->
  (forall e, download = inl e ->
     outcome round c = inl e /\ sentBy round c = [])
  /\ (forall e, download = inr tt -> supportedExt ext = true ->
      parser = inl e -> outcome round c = inl e)
  /\ (download = inr tt ->
      (supportedExt ext = true -> exists p, parser = inr p) ->
      exists result, outcome round c = inr result).
Proof.
  intros round Hreg Hst. unfold round, uploadOldRound. split; [|split].
  - intros e ->. split; reflexivity.
  - intros e -> Hext ->. rewrite Hext. unfold outcome, run.
    rewrite bind_eq. destruct (Hreg c) as (c0 & q0 & Hc0).
    erewrite exec_eq by exact Hc0. reflexivity.
  - intros -> Hp. destruct (supportedExt ext).
    + destruct (Hp eq_refl) as (p & ->).
      by apply uploadOldFile_contains_errors.
    + by apply uploadOldFile_contains_errors.
Qed.

(** Once the file is downloaded and registered, a round in which the
    parser throws sends nothing more: the file is left at [processing],
    with no statement that ends its run.  In every other round a
    statement that ends the run of the file is sent (unsupported, empty,
    failed or processed), whatever the store answers; a result is
    reported only for a source that has rows and a supported extension,
    and then the last statement sent is the update to processed, with the
    number of rows of the source, which is also the row count reported. *)
Theorem uploadOldRound_terminal_status (file : FileRecord)
    (ext suggested explicit : jsstring)
    (parser : SqlError + option ParsedData) (ifExists : IfExists)
    (nullability : Nullability) (c c0 : conn) (q0 : QueryResult) :
  let round :=
    uploadOldRound file (inr tt) ext parser suggested ifExists explicit
      nullability in
  query c (UpsertFile file Processing) = (c0, inr q0) ->
  (forall e, supportedExt ext = true -> parser = inl e ->
     sentBy round c = [UpsertFile file Processing]
     /\ outcome round c = inl e)
  /\ ((supportedExt ext = true -> exists p, parser = inr p) ->
      existsb isTerminalStatus (sentBy round c) = true
      /\ forall result, outcome round c = inr (Some result) ->
           exists p, parser = inr (Some p)
             /\ rows p <> []
             /\ supportedExt ext = true
             /\ last (sentBy round c)
                = Some (UpdateFileProcessed (length (rows p)) (id file))
             /\ result
                = {| resultFileId := id file;
                     resultTable :=
                       sanitizeSqlIdentifier
                         (orElse (Some explicit) suggested);
                     resultRowCount := length (rows p) |}).
Proof.
  intros round Hreg. unfold round, uploadOldRound. split.
  - intros e Hext ->. rewrite Hext. unfold sentBy, outcome, run.
    rewrite bind_eq. erewrite exec_eq by exact Hreg. split; reflexivity.
  - intros Hp. destruct (supportedExt ext) eqn:Hext.
    + destruct (Hp eq_refl) as (parsed & ->).
      destruct (uploadOldFile_terminal_status file ext suggested explicit
                  parsed ifExists nullability c c0 q0 Hreg) as [Hend Hres].
      split; [exact Hend|]. intros result Hout.
      destruct (Hres result Hout) as (p & -> & Hrest). exists p.
      split; [reflexivity|]. rewrite Hext in Hrest. exact Hrest.
    + destruct (uploadOldFile_terminal_status file ext suggested explicit
                  None ifExists nullability c c0 q0 Hreg) as [Hend Hres].
      split; [exact Hend|]. intros result Hout.
      destruct (Hres result Hout) as (p & [=] & _).
Qed.

(** *** What a run touches *)

Lemma sendsAll_tryCatch (P : Stmt -> Prop) {A} (m : M A)
    (handler : SqlError -> M A) :
  sendsAll P m -> (forall e, sendsAll P (handler e)) ->
  sendsAll P (tryCatch m handler).
Proof.
  intros Hm Hh w. unfold tryCatch. destruct (Hm w) as (x1 & H1 & F1).
  destruct (m w) as [w1 [e|a]]; cbn [fst] in *.
  - destruct (Hh e w1) as (x2 & H2 & F2). exists (x1 ++ x2).
    rewrite H2, H1, app_assoc. split; [done|]. by apply Forall_app.
  - exists x1. done.
Qed.

Lemma sendsAll_throw (P : Stmt -> Prop) {A} (e : SqlError) :
  sendsAll P (@throw R D A e).
Proof. intros w. exists []. unfold throw. cbn. by rewrite app_nil_r. Qed.

Ltac sends_all_route :=
  repeat first
    [ apply sendsAll_bind
    | apply sendsAll_ret
    | apply sendsAll_throw
    | apply sendsAll_forBatches
    | apply sendsAll_tryCatch
    | match goal with
      | |- forall _, _ => intro
      | |- sendsAll _ (match ?x with _ => _ end) => destruct x
      | |- sendsAll _ (if ?x then _ else _) => destruct x
      end
    | progress unfold importBatch, uploadOldBatch; cbv zeta ].

(** Whatever the store answers and whatever the error messages say, the
    table statements of both pipelines (drop, existence check, create,
    insert, describe, alter) all name the sanitized target table, and the
    registry statements all name the file at hand: a run touches no other
    table and no other file. *)
Theorem pipelines_touch_only_target (file : FileRecord)
    (ext suggested explicit : jsstring) (explicitOpt : option jsstring)
    (parsed : ParsedData) (ifExists : IfExists) (nullability : Nullability)
    (c : conn) :
  let only := fun (t : jsstring) (s : Stmt) =>
    (forall t', stmtTable s = Some t' -> t' = t)
    /\ (forall fid, stmtFile s = Some fid -> fid = id file) in
  Forall (only (sanitizeSqlIdentifier (orElse explicitOpt suggested)))
    (sentBy (importDataToTable file suggested parsed ifExists explicitOpt) c)
  /\ Forall (only (sanitizeSqlIdentifier (orElse (Some explicit) suggested)))
       (sentBy (uploadOldFile file ext (Some parsed) suggested ifExists
                  explicit nullability) c).
Proof.
  intros only. split; apply sendsAll_sentBy.
  - unfold importDataToTable. cbn [generateCreateTableSql].
    sends_all_route; apply sendsAll_exec; split; intros ? [=]; done.
  - unfold uploadOldFile. cbn [generateCreateTableSql].
    sends_all_route; apply sendsAll_exec; split; intros ? [=]; done.
Qed.

(** In the route, an insert rejected with a message that is not a
    not-null violation is sent once and its error is passed on
    unchanged: nothing is described, altered or retried. *)
Theorem uploadOldBatch_rethrows (t : jsstring) (parsed : ParsedData)
    (schema : TableSchema) (batch : list (gmap jsstring (cell R)))
    (w : World) (c1 : conn) (e : SqlError) :
  let ins := insertStatement t parsed schema batch in
  (0 < length batch * length (columns schema))%nat ->
  query (db w) ins = (c1, inl e) ->
  notNullColumn (errorText e) = None ->
  uploadOldBatch t parsed schema batch w
  = ({| db := c1; sent := sent w ++ [ins] |}, inl e).
Proof.
  intros ins Hpos Hins Hmsg. unfold uploadOldBatch. cbv zeta.
  rewrite batchValues_flat_length.
  destruct (Nat.ltb_spec 0 (length batch * length (columns schema)));
    [|lia].
  unfold tryCatch. rewrite bind_eq. fold ins.
  erewrite exec_eq by exact Hins. cbn beta iota. rewrite Hmsg. reflexivity.
Qed.

End PipelineMore.

(** ** The connection pool *)

Section PoolFacts.
Context {R : JsNumber}.

(** With no pool yet, an unset or empty [DB_USER] makes [getDatabasePool]
    throw [Missing env var DB_USER]; with [DB_USER] set, an unset or empty
    [DB_DATABASE] makes it throw [Missing env var DB_DATABASE].  In both
    cases no pool is kept, so a later call looks at the environment
    again.  With both set a pool is made for that user and database. *)
Theorem getDatabasePool_required (env : gmap jsstring jsstring) :
  (envTruthy env (lit "DB_USER") = None ->
   getDatabasePool env None = (None, inl (lit "Missing env var DB_USER")))
  /\ (forall u, envTruthy env (lit "DB_USER") = Some u ->
      envTruthy env (lit "DB_DATABASE") = None ->
      getDatabasePool env None
      = (None, inl (lit "Missing env var DB_DATABASE")))
  /\ (forall u d, envTruthy env (lit "DB_USER") = Some u ->
      envTruthy env (lit "DB_DATABASE") = Some d ->
      exists p, getDatabasePool env None = (Some p, inr p)
        /\ user p = u /\ database p = d).
Proof.
  unfold getDatabasePool. cbn [firstMissing]. repeat split.
  - intros ->. reflexivity.
  - intros u -> ->. reflexivity.
  - intros u d Hu Hd. rewrite Hu, Hd.
    assert (Hu' : env !! lit "DB_USER" = Some u).
    { unfold envTruthy in Hu. destruct (env !! lit "DB_USER") as [[|]|];
        congruence. }
    assert (Hd' : env !! lit "DB_DATABASE" = Some d).
    { unfold envTruthy in Hd.
      destruct (env !! lit "DB_DATABASE") as [[|]|]; congruence. }
    destruct (envTruthy env (lit "DB_SOCKET_PATH")); eexists;
      (split; [reflexivity|]); cbn [user database];
      rewrite ?Hu', ?Hd'; done.
Qed.

(** Once a call has returned a pool, every later call returns that same
    pool and leaves it in place, whatever the environment has become,
    even one in which the required variables are gone. *)
Theorem getDatabasePool_cached (env env' : gmap jsstring jsstring)
    (pool : option PoolConfig) (p : PoolConfig) :
  snd (getDatabasePool env pool) = inr p ->
  getDatabasePool env' (fst (getDatabasePool env pool)) = (Some p, inr p).
Proof.
  unfold getDatabasePool. destruct pool as [p0|].
  - cbn. intros [= ->]. reflexivity.
  - destruct (firstMissing env _); [discriminate|].
    destruct (envTruthy env (lit "DB_SOCKET_PATH")); cbn [fst snd];
      intros [= <-]; reflexivity.
Qed.

Lemma stripPrefixCI_nil_iff (pat s : jsstring) :
  stripPrefixCI pat s = Some [] <-> map upperUnit s = map upperUnit pat.
Proof.
  revert s. induction pat as [|p pat IH]; intros s.
  - simpl. split; [by intros [= ->]|]. by destruct s.
  - destruct s as [|c r]; simpl; [by split|]. unfold eqbCI.
    destruct (N.eqb_spec (upperUnit p) (upperUnit c)) as [Heq|Hne].
    + rewrite IH, Heq. split; [by intros ->|]. by intros [= ->].
    + split; [done|]. intros [= Heq _]. by rewrite Heq in Hne.
Qed.

(** The pool is made with TLS exactly when [DB_SSL] holds the word
    [true], in any mix of small and capital letters: [1], [yes] or a
    padded [ true ] leave it off. *)
Theorem getDatabasePool_ssl (env : gmap jsstring jsstring)
    (p : PoolConfig) :
  snd (getDatabasePool env None) = inr p ->
  ssl p = true <->
  exists v, env !! lit "DB_SSL" = Some v /\ map upperUnit v = lit "TRUE".
Proof.
  unfold getDatabasePool. destruct (firstMissing env _); [discriminate|].
  assert (Hssl : reTrue (default [] (envTruthy env (lit "DB_SSL"))) = true
                 <-> exists v, env !! lit "DB_SSL" = Some v
                       /\ map upperUnit v = lit "TRUE").
  { unfold reTrue, envTruthy.
    destruct (env !! lit "DB_SSL") as [[|c r]|] eqn:Hv;
      cbn [default from_option Datatypes.id].
    - split; [discriminate|]. intros (v & [= <-] & H). discriminate.
    - pose proof (stripPrefixCI_nil_iff (lit "true") (c :: r)) as Hiff.
      change (map upperUnit (lit "true")) with (lit "TRUE") in Hiff.
      destruct (stripPrefixCI (lit "true") (c :: r)) as [[|x y]|].
      + split; [|reflexivity]. intros _. exists (c :: r).
        split; [reflexivity|]. by apply Hiff.
      + split; [discriminate|]. intros (v & [= <-] & H).
        apply Hiff in H. discriminate.
      + split; [discriminate|]. intros (v & [= <-] & H).
        apply Hiff in H. discriminate.
    - split; [discriminate|]. intros (v & [=] & _). }
  destruct (envTruthy env (lit "DB_SOCKET_PATH")); cbn [snd];
    intros [= <-]; cbn [ssl]; exact Hssl.
Qed.

(** ** Choosing the parser *)

Lemma includes_false_eqb (l : list jsstring) (s x : jsstring) :
  includes l s = false -> In x l -> eqbStr s x = false.
Proof.
  unfold includes. intros Hf Hx.
  destruct (eqbStr s x) eqn:He; [|done].
  assert (existsb (eqbStr s) l = true)
    by (apply existsb_exists; eauto). congruence.
Qed.

(** A file whose extension, lower-cased, is [.csv], [.xlsx] or [.xls] is
    parsed according to that extension and the type override is not
    looked at.  For any other file the override decides: [csv] selects
    the CSV parser, [xlsx] and [xls] the spreadsheet parser, and any
    other override, a name inherited by every object included, selects
    none, as does no override.  The override is compared as it is given,
    so [CSV] in capitals selects none. *)
Theorem parserFor_override (extname : jsstring)
    (overrideType : option jsstring) :
  let ext := toLowerCase extname in
  (includes [lit ".csv"; lit ".xlsx"; lit ".xls"] ext = true ->
   parserFor extname overrideType = parserFor extname None
   /\ parserFor extname None
      = Some (if eqbStr ext (lit ".csv") then CsvParser else ExcelParser))
  /\ (includes [lit ".csv"; lit ".xlsx"; lit ".xls"] ext = false ->
      parserFor extname overrideType
      = match overrideType with
        | Some k =>
            if eqbStr k (lit "csv") then Some CsvParser
            else if eqbStr k (lit "xlsx") || eqbStr k (lit "xls")
            then Some ExcelParser
            else None
        | None => None
        end).
Proof.
  intros ext. unfold parserFor, resolveExt. fold ext. split.
  - intros Hs. rewrite Hs. cbn [negb]. split; [reflexivity|].
    unfold includes in Hs. cbn [existsb] in Hs.
    destruct (eqbStr ext (lit ".csv")); [reflexivity|].
    destruct (eqbStr ext (lit ".xlsx")); [reflexivity|].
    destruct (eqbStr ext (lit ".xls")); [reflexivity | discriminate].
  - intros Hs. rewrite Hs. cbn [negb].
    assert (H1 := includes_false_eqb _ ext (lit ".csv") Hs
                    ltac:(cbn; auto)).
    assert (H2 := includes_false_eqb _ ext (lit ".xlsx") Hs
                    ltac:(cbn; auto)).
    assert (H3 := includes_false_eqb _ ext (lit ".xls") Hs
                    ltac:(cbn; auto)).
    destruct overrideType as [[|k0 k]|].
    + rewrite H1, H2, H3. reflexivity.
    + unfold overrideMap.
      destruct (eqbStr (k0 :: k) (lit "csv")); [reflexivity|].
      destruct (eqbStr (k0 :: k) (lit "xlsx")); [reflexivity|].
      destruct (eqbStr (k0 :: k) (lit "xls")); [reflexivity|].
      destruct (includes inheritedKeys (k0 :: k)); [reflexivity|].
      rewrite H1, H2, H3. reflexivity.
    + rewrite H1, H2, H3. reflexivity.
Qed.

(** The route selects the parser that [downloadAndParseFile] selects for
    the lower-cased override: for a file whose extension is not
    supported, an override that lower-cases to [csv] selects the CSV
    parser and one that lower-cases to [xlsx] or [xls] the spreadsheet
    parser, in whatever letter case it was given. *)
Theorem uploadOldParser_lowercases_override (extname fileType : jsstring) :
  uploadOldParser extname fileType
  = parserFor extname (Some (toLowerCase fileType))
  /\ (includes [lit ".csv"; lit ".xlsx"; lit ".xls"] (toLowerCase extname)
      = false ->
      (uploadOldParser extname fileType = Some CsvParser
       <-> toLowerCase fileType = lit "csv")
      /\ (uploadOldParser extname fileType = Some ExcelParser
          <-> toLowerCase fileType = lit "xlsx"
              \/ toLowerCase fileType = lit "xls")).
Proof.
  unfold uploadOldParser, uploadOldResolveExt, parserFor, resolveExt.
  cbv zeta. generalize (toLowerCase extname) (toLowerCase fileType).
  intros ext k. split.
  - destruct (includes _ ext); cbn [negb]; [reflexivity|].
    destruct k; reflexivity.
  - intros Hs. rewrite Hs. cbn [negb].
    assert (H1 := includes_false_eqb _ ext (lit ".csv") Hs
                    ltac:(cbn; auto)).
    assert (H2 := includes_false_eqb _ ext (lit ".xlsx") Hs
                    ltac:(cbn; auto)).
    assert (H3 := includes_false_eqb _ ext (lit ".xls") Hs
                    ltac:(cbn; auto)).
    unfold overrideMap.
    destruct (eqbStr k (lit "csv")) eqn:E1.
    { apply bool_decide_eq_true in E1 as ->.
      split; split; intros H; try reflexivity;
        try (vm_compute in H; discriminate H).
      destruct H as [H|H]; vm_compute in H; discriminate H. }
    apply bool_decide_eq_false in E1.
    destruct (eqbStr k (lit "xlsx")) eqn:E2.
    { apply bool_decide_eq_true in E2 as ->.
      split; split; intros H; try reflexivity;
        try (vm_compute in H; discriminate H).
      left; reflexivity. }
    apply bool_decide_eq_false in E2.
    destruct (eqbStr k (lit "xls")) eqn:E3.
    { apply bool_decide_eq_true in E3 as ->.
      split; split; intros H; try reflexivity;
        try (vm_compute in H; discriminate H).
      right; reflexivity. }
    apply bool_decide_eq_false in E3.
    destruct (includes inheritedKeys k); rewrite ?H1, ?H2, ?H3;
      cbn [orb]; split; split; intros H; first [discriminate H | tauto].
Qed.


End PoolFacts.

(** ** The properties on concrete runs *)

Lemma inferTableSchema_types_witness :
  In (type sampleColumn) [LONGTEXT; BOOLEAN; BIGINT; DOUBLE; DATETIME]
  /\ varcharLength sampleColumn = None
  /\ typeStrOf sampleColumn = typeName (type sampleColumn).
Proof.
  apply (inferTableSchema_types (headers sampleParsed) (rows sampleParsed)
           sampleColumn).
  left. reflexivity.
Defined.

Lemma inferTableSchema_sample_only_witness :
  let rows : list (gmap jsstring (cell integerRuntime)) :=
    replicate 1000 ∅ in
  inferTableSchema [Some (lit "a")]
    (rows ++ [ {[ lit "a" := CString (lit "x") ]} ])
  = inferTableSchema [Some (lit "a")] rows.
Proof.
  intros rows. apply inferTableSchema_sample_only.
  unfold rows. rewrite length_replicate. apply le_n.
Defined.

Lemma inferTableSchema_no_values_witness :
  let rows : list (gmap jsstring (cell integerRuntime)) := [∅; ∅] in
  ((forall r, In r (sampleRows rows) ->
      isDefined (rowGet r (originalHeader sampleColumn))
      && isNonNull (rowGet r (originalHeader sampleColumn)) = false) ->
   type sampleColumn = LONGTEXT)
  /\ ((forall r, In r (sampleRows rows) ->
         rowGet r (originalHeader sampleColumn) = CUndefined) ->
      type sampleColumn = LONGTEXT /\ nullable sampleColumn = false).
Proof.
  intros rows.
  apply (inferTableSchema_no_values [Some (lit "a")] rows sampleColumn).
  left. reflexivity.
Defined.

Lemma notNullColumn_roundtrip_witness :
  notNullColumn (lit "Column 'a' cannot be null at row 1") = Some (lit "a").
Proof.
  refine (proj1 (notNullColumn_roundtrip (lit "a") (lit " at row 1") _ _)).
  - discriminate.
  - reflexivity.
Defined.

Lemma importDataToTable_creates_nullable_witness :
  let cols := [{| defName := lit "a"; defType := lit "LONGTEXT";
                  defAllowNull := true |}] in
  lit "sales" = sanitizeSqlIdentifier (orElse (Some []) (lit "sales"))
  /\ length cols = length (headers sampleParsed)
  /\ NoDup (map defName cols)
  /\ Forall (fun d => defAllowNull d = true) cols.
Proof.
  intros cols.
  apply (@importDataToTable_creates_nullable _ acceptingStore sampleFile
           (lit "sales") sampleParsed Append (Some []) 0%nat (lit "sales")
           cols).
  left. reflexivity.
Defined.

Lemma uploadOldRound_throws_only_outside_store_witness :
  let round parser :=
    @uploadOldRound _ insertRejectingStore sampleFile (inr tt) (lit ".csv")
      parser (lit "sales") Append [] Inferred in
  outcome (round (inl parseError)) 0%nat = inl parseError
  /\ exists result,
       outcome (round (inr (Some sampleParsed))) 0%nat = inr result.
Proof.
  intros round.
  assert (Hreg : forall c' : @conn _ insertRejectingStore, exists c'' q,
            query c' (UpsertFile sampleFile Processing) = (c'', inr q))
    by (intros c'; eexists _, _; reflexivity).
  assert (Hst : forall (c' : @conn _ insertRejectingStore) st, exists c'' q,
            query c' (UpdateFileStatus st (id sampleFile)) = (c'', inr q))
    by (intros c' st; eexists _, _; reflexivity).
  split.
  - exact (proj1 (proj2
             (@uploadOldRound_throws_only_outside_store _
                insertRejectingStore sampleFile (inr tt) (lit ".csv")
                (lit "sales") [] (inl parseError) Append Inferred 0%nat
                Hreg Hst))
             parseError eq_refl eq_refl eq_refl).
  - apply (proj2 (proj2
             (@uploadOldRound_throws_only_outside_store _
                insertRejectingStore sampleFile (inr tt) (lit ".csv")
                (lit "sales") [] (inr (Some sampleParsed)) Append Inferred
                0%nat Hreg Hst))).
    + reflexivity.
    + intros _. eexists. reflexivity.
Defined.

Lemma uploadOldRound_terminal_status_witness :
  let round parser :=
    uploadOldRound sampleFile (inr tt) (lit ".csv") parser (lit "sales")
      Append [] Inferred in
  let c := script [inr HeaderResult; inr HeaderResult; inl notNullError;
                   inr HeaderResult; inl notNullError] in
  (sentBy (round (inl parseError)) c = [UpsertFile sampleFile Processing]
   /\ outcome (round (inl parseError)) c = inl parseError)
  /\ existsb isTerminalStatus (sentBy (round (inr (Some sampleParsed))) c)
     = true.
Proof.
  intros round c.
  pose (c0 := script [inr HeaderResult; inl notNullError; inr HeaderResult;
                      inl notNullError]).
  split.
  - apply (proj1
             (@uploadOldRound_terminal_status _ scriptedStore sampleFile
                (lit ".csv") (lit "sales") [] (inl parseError) Append
                Inferred c c0 HeaderResult eq_refl)
             parseError); reflexivity.
  - refine (proj1 (proj2
             (@uploadOldRound_terminal_status _ scriptedStore sampleFile
                (lit ".csv") (lit "sales") [] (inr (Some sampleParsed))
                Append Inferred c c0 HeaderResult eq_refl) _)).
    intros _. eexists. reflexivity.
Defined.

Lemma importDataToTable_accepted_run_witness :
  let t := lit "sales" in
  let schema := inferTableSchema (headers sampleParsed) (rows sampleParsed) in
  let import :=
    importDataToTable sampleFile (lit "sales") sampleParsed Replace
      (Some []) in
  @sentBy _ acceptingStore _ import 0%nat
  = [DropTableIfExists t;
     CreateTableIfNotExists t
       (snd (generateCreateTableSql t schema Replace AllNullable));
     insertStatement t sampleParsed schema (rows sampleParsed);
     UpdateFileProcessed 2 (lit "f1")]
  /\ @outcome _ acceptingStore _ import 0%nat = inr tt.
Proof.
  intros t schema import.
  destruct (@importDataToTable_accepted_run _ acceptingStore sampleFile
              (lit "sales") sampleParsed Replace (Some []) 0%nat
              acceptingStore_quiet ltac:(discriminate)) as (Hs & Ho & _).
  split; [exact Hs | exact Ho].
Defined.

Lemma uploadOldFile_accepted_run_witness :
  let t := lit "sales" in
  let schema := inferTableSchema (headers sampleParsed) (rows sampleParsed) in
  let route :=
    uploadOldFile sampleFile (lit ".csv") (Some sampleParsed) (lit "sales")
      Fail [] Inferred in
  @sentBy _ acceptingStore _ route 0%nat
  = [UpsertFile sampleFile Processing;
     ShowTablesLike t;
     CreateTableIfNotExists t
       (snd (generateCreateTableSql t schema Fail Inferred));
     insertStatement t sampleParsed schema (rows sampleParsed);
     UpdateFileProcessed 2 (lit "f1")]
  /\ @outcome _ acceptingStore _ route 0%nat
     = inr (Some {| resultFileId := lit "f1"; resultTable := t;
                    resultRowCount := 2 |}).
Proof.
  intros t schema route.
  apply (@uploadOldFile_accepted_run _ acceptingStore sampleFile
           (lit ".csv") (lit "sales") [] sampleParsed Fail Inferred 0%nat
           acceptingStore_quiet).
  - discriminate.
  - discriminate.
  - reflexivity.
Defined.

Lemma importDataToTable_inserts_prefix_witness :
  let t := lit "sales" in
  let schema := inferTableSchema (headers sampleParsed) (rows sampleParsed) in
  let sentStmts :=
    sentBy
      (importDataToTable sampleFile (lit "sales") sampleParsed Append
         (Some []))
      (script [inr HeaderResult; inl notNullError]) in
  exists k,
    (k <= length (batches (rows sampleParsed)))%nat
    /\ List.filter isInsert sentStmts
       = map (insertStatement t sampleParsed schema)
           (take k (batches (rows sampleParsed)))
    /\ (In (UpdateFileProcessed (length (rows sampleParsed)) (id sampleFile))
          sentStmts ->
        k = length (batches (rows sampleParsed))).
Proof.
  intros t schema sentStmts.
  apply (@importDataToTable_inserts_prefix _ scriptedStore sampleFile
           (lit "sales") sampleParsed Append (Some [])
           (script [inr HeaderResult; inl notNullError])).
  discriminate.
Defined.

Lemma uploadOldBatch_rethrows_witness :
  let t := lit "sales" in
  let schema := inferTableSchema (headers sampleParsed) (rows sampleParsed) in
  let ins := insertStatement t sampleParsed schema (rows sampleParsed) in
  let start : @World _ insertRejectingStore :=
    {| db := 0%nat : @conn _ insertRejectingStore; sent := [] |} in
  uploadOldBatch t sampleParsed schema (rows sampleParsed) start
  = ({| db := 1%nat : @conn _ insertRejectingStore; sent := [ins] |},
     inl deadlockError).
Proof.
  intros t schema ins start.
  apply (@uploadOldBatch_rethrows _ insertRejectingStore t sampleParsed
           schema (rows sampleParsed) start 1%nat deadlockError).
  - apply le_S, le_n.
  - reflexivity.
  - reflexivity.
Defined.

Lemma uploadOldBatch_repair_witness :
  let t := lit "sales" in
  let schema := inferTableSchema (headers sampleParsed) (rows sampleParsed) in
  let ins := insertStatement t sampleParsed schema (rows sampleParsed) in
  let alter := AlterModifyNull t (lit "a") (lit "LONGTEXT") in
  @uploadOldBatch _ scriptedStore t sampleParsed schema (rows sampleParsed)
    {| db := script [inl notNullError; inr HeaderResult; inr HeaderResult];
       sent := [] |}
  = ({| db := script []; sent := [ins; alter; ins] |}, inr tt).
Proof.
  intros t schema ins alter.
  apply (@uploadOldBatch_repair _ scriptedStore t sampleParsed schema
           (rows sampleParsed)
           {| db := script [inl notNullError; inr HeaderResult;
                            inr HeaderResult];
              sent := [] |}
           (script [inr HeaderResult; inr HeaderResult])
           (script [inr HeaderResult]) notNullError (lit "a") sampleColumn
           HeaderResult).
  - apply le_S, le_n.
  - reflexivity.
  - reflexivity.
  - reflexivity.
  - reflexivity.
Defined.

Lemma uploadOldFile_empty_source_witness :
  @sentBy _ acceptingStore _
    (uploadOldFile sampleFile (lit ".csv")
       (Some {| headers := [Some (lit "a")]; rows := [] |}) (lit "sales")
       Replace [] Inferred) 0%nat
  = [UpsertFile sampleFile Processing; UpdateFileStatus Empty (lit "f1")].
Proof.
  apply (@uploadOldFile_empty_source _ acceptingStore sampleFile
           (lit ".csv") (lit "sales") [] [Some (lit "a")] Replace Inferred
           0%nat 1%nat HeaderResult).
  - reflexivity.
  - reflexivity.
Defined.

Lemma getDatabasePool_cached_witness :
  let env : gmap jsstring jsstring :=
    {[ lit "DB_USER" := lit "app"; lit "DB_DATABASE" := lit "imports" ]} in
  let p := {| user := lit "app"; password := []; database := lit "imports";
              ssl := false;
              endpoint := Tcp (lit "localhost") (@numOfZ integerRuntime 3306)
           |} in
  getDatabasePool ∅ (fst (getDatabasePool env None)) = (Some p, inr p).
Proof.
  intros env p. apply getDatabasePool_cached. reflexivity.
Defined.

Lemma getDatabasePool_ssl_witness :
  let env : gmap jsstring jsstring :=
    {[ lit "DB_USER" := lit "app"; lit "DB_DATABASE" := lit "imports";
       lit "DB_SSL" := lit "True" ]} in
  let p := {| user := lit "app"; password := []; database := lit "imports";
              ssl := true;
              endpoint := Tcp (lit "localhost") (@numOfZ integerRuntime 3306)
           |} in
  ssl p = true <->
  exists v, env !! lit "DB_SSL" = Some v /\ map upperUnit v = lit "TRUE".
Proof.
  intros env p. apply (getDatabasePool_ssl env p). reflexivity.
Defined.
